(** * leetcli: resolver, cache, problem source and markup converter

    A shallow embedding of [src/leetcli/cli.py] and the properties its
    specification states about it.

    Conventions of the embedding.
    - A Python [str] is a list of characters, a character being a code
      point below 256 ([ascii]); the character classes ([isspace],
      [isdigit], [lower]) are Python's on that range.
    - A decoded JSON document is a value of [json]; Python's [None] is
      [JNull], so a function returning [Optional[...]] returns a [json].
    - Effects (clock, cache directory, network) are threaded through an
      explicit [world]; a computation ends by returning, by raising a
      Python exception, or not at all ([Diverge]: the fuel of the only
      loop, the catalog pagination, ran out). *)

From Stdlib Require Import ZArith QArith Ascii String List Bool Lia.
From Stdlib Require Import DecimalString Lqa.
From stdpp Require Import base option list gmap strings.

Set Default Proof Using "Type".

(** ** Python strings *)

Declare Scope str_scope.
Delimit Scope str_scope with str.
#[warnings="-via-type-mismatch"]
String Notation list string_of_list_byte list_byte_of_string
  (via string mapping [[nil] => EmptyString, [cons] => String]) : str_scope.
Open Scope str_scope.

Abbreviation str := (list ascii).

Module Py.

Definition code (c : ascii) : N := N_of_ascii c.

(** [str.isspace] on one character; also what [str.split()],
    [str.strip()] and the pattern [\s] take for whitespace. *)
Definition isspace (c : ascii) : bool :=
  let n := code c in
  ((9 <=? n) && (n <=? 13) || (28 <=? n) && (n <=? 32)
   || (n =? 133) || (n =? 160))%N.

(** [str.isdigit] on one character: the decimal digits and the three
    superscript digits of Latin-1. *)
Definition isdigit_char (c : ascii) : bool :=
  let n := code c in
  ((48 <=? n) && (n <=? 57) || (n =? 178) || (n =? 179) || (n =? 185))%N.

Definition isalpha_ascii (c : ascii) : bool :=
  let n := code c in
  ((65 <=? n) && (n <=? 90) || (97 <=? n) && (n <=? 122))%N.

Definition lower_char (c : ascii) : ascii :=
  let n := code c in
  if ((65 <=? n) && (n <=? 90)
      || (192 <=? n) && (n <=? 222) && negb (n =? 215))%N
  then ascii_of_N (n + 32) else c.

(** [s.lower()] *)
Definition lower (s : str) : str := map lower_char s.

(** [s.isdigit()]: false on the empty string. *)
Definition isdigit (s : str) : bool :=
  match s with
  | [] => false
  | _ => forallb isdigit_char s
  end.

Fixpoint lstrip (s : str) : str :=
  match s with
  | c :: r => if isspace c then lstrip r else s
  | [] => []
  end.

Definition rstrip (s : str) : str := reverse (lstrip (reverse s)).

(** [s.strip()] *)
Definition strip (s : str) : str := rstrip (lstrip s).

(** [s.split()]: the maximal whitespace-free runs of [s], in order.
    [word] is the run being read. *)
Fixpoint split_from (word : str) (s : str) : list str :=
  match s with
  | [] => match word with [] => [] | _ => [word] end
  | c :: r =>
      if isspace c
      then match word with
           | [] => split_from [] r
           | _ => word :: split_from [] r
           end
      else split_from (word ++ [c]) r
  end.

Definition split (s : str) : list str := split_from [] s.

(** [sep.join(parts)] *)
Fixpoint join (sep : str) (parts : list str) : str :=
  match parts with
  | [] => []
  | [x] => x
  | x :: rest => x ++ sep ++ join sep rest
  end.

(** [s.startswith(p)] *)
Fixpoint startswith (p s : str) : bool :=
  match p, s with
  | [], _ => true
  | a :: p', b :: s' => if ascii_dec a b then startswith p' s' else false
  | _ :: _, [] => false
  end.

(** [p in s] for two strings: [p] occurs in [s] as a substring. *)
Fixpoint contains (p s : str) : bool :=
  startswith p s
  || match s with
     | [] => false
     | _ :: r => contains p r
     end.

(** [s.endswith("\n")] *)
Definition ends_with_newline (s : str) : bool :=
  match last s with
  | Some c => if ascii_dec c "010" then true else false
  | None => false
  end.

(** [re.sub(r"\s+", " ", s)]: every maximal whitespace run becomes one
    space. [in_run] tells that the previous character was whitespace. *)
Fixpoint sub_ws (in_run : bool) (s : str) : str :=
  match s with
  | [] => []
  | c :: r =>
      if isspace c
      then if in_run then sub_ws true r else " "%char :: sub_ws true r
      else c :: sub_ws false r
  end.

End Py.

(** ** MarkupToText: [class HtmlToText(HTMLParser)] *)

Record HtmlToText := mkParser {
  _chunks : list str;
  _in_pre : bool;
  _pending_space : bool;
  _list_prefix : str
}.

(** [__init__] *)
Definition HtmlToText_init : HtmlToText :=
  {| _chunks := []; _in_pre := false; _pending_space := false;
     _list_prefix := "" |}.

Definition _append (text : str) (self : HtmlToText) : HtmlToText :=
  {| _chunks := _chunks self ++ [text];
     _in_pre := _in_pre self;
     _pending_space := _pending_space self;
     _list_prefix := _list_prefix self |}.

Definition _newline (self : HtmlToText) : HtmlToText :=
  match last (_chunks self) with
  | None => self
  | Some c =>
      if Py.ends_with_newline c then self
      else {| _chunks := _chunks self ++ ["010"%char :: []];
              _in_pre := _in_pre self;
              _pending_space := false;
              _list_prefix := _list_prefix self |}
  end.

Definition set_in_pre (b : bool) (self : HtmlToText) : HtmlToText :=
  {| _chunks := _chunks self; _in_pre := b;
     _pending_space := _pending_space self;
     _list_prefix := _list_prefix self |}.

Definition set_pending_space (b : bool) (self : HtmlToText) : HtmlToText :=
  {| _chunks := _chunks self; _in_pre := _in_pre self;
     _pending_space := b;
     _list_prefix := _list_prefix self |}.

Definition tag_in (tag : str) (tags : list str) : bool :=
  bool_decide (tag ∈ tags).

Definition handle_starttag (tag : str) (attrs : list (str * option str))
    (self : HtmlToText) : HtmlToText :=
  if tag_in tag ["p"; "br"] then _newline self
  else if bool_decide (tag = "pre") then set_in_pre true (_newline self)
  else if bool_decide (tag = "code") && negb (_in_pre self)
       then _append "`" self
  else if tag_in tag ["ul"; "ol"] then _newline self
  else if bool_decide (tag = "li") then _append "- " (_newline self)
  else self.

Definition handle_endtag (tag : str) (self : HtmlToText) : HtmlToText :=
  if bool_decide (tag = "pre") then set_in_pre false (_newline self)
  else if bool_decide (tag = "code") && negb (_in_pre self)
       then _append "`" self
  else if tag_in tag ["p"; "br"] then _newline self
  else self.

Definition handle_data (data : str) (self : HtmlToText) : HtmlToText :=
  match data with
  | [] => self
  | _ =>
      if _in_pre self then _append data self
      else
        let text := Py.join " " (Py.split data) in
        match text with
        | [] => self
        | _ =>
            let self1 :=
              if _pending_space self
              then set_pending_space false (_append " " self)
              else self in
            set_pending_space true (_append text self1)
        end
  end.

Definition get_text (self : HtmlToText) : str :=
  Py.strip (concat (_chunks self)).

(** *** The tokenizer that drives the handlers: [HTMLParser.feed]

    [HTMLParser] is the standard library's; the embedding covers the
    fragments made of character data without ['<'] and ['&'] and of tags
    of the plain forms [<name>] and [</name>] (a letter followed by
    letters and digits). On those [feed] calls [handle_data] once per
    maximal run of character data and [handle_starttag]/[handle_endtag]
    with the lower-cased name. Everything else (attributes, comments,
    declarations, character references, unfinished tags, the elements
    whose content the library reads as raw text) is outside the
    embedding: [feed] is [None] there. *)

Inductive markup_event :=
| StartTag (tag : str) (attrs : list (str * option str))
| EndTag (tag : str)
| Data (data : str).

Inductive scan_mode :=
| InText (text : str)
| AfterLt
| AfterLtSlash
| InName (closing : bool) (name : str).

Definition isalnum_ascii (c : ascii) : bool :=
  Py.isalpha_ascii c || ((48 <=? Py.code c) && (Py.code c <=? 57))%N.

Definition raw_text_elements : list str :=
  ["script"; "style"; "textarea"; "title"; "plaintext"].

Definition data_event (text : str) : list markup_event :=
  match text with
  | [] => []
  | _ => [Data text]
  end.

Fixpoint scan (mode : scan_mode) (s : str) : option (list markup_event) :=
  match s with
  | [] =>
      match mode with
      | InText text => Some (data_event text)
      | _ => None
      end
  | c :: r =>
      match mode with
      | InText text =>
          if ascii_dec c "<" then app (data_event text) <$> scan AfterLt r
          else if ascii_dec c "&" then None
          else scan (InText (text ++ [c])) r
      | AfterLt =>
          if Py.isalpha_ascii c then scan (InName false [c]) r
          else if ascii_dec c "/" then scan AfterLtSlash r
          else None
      | AfterLtSlash =>
          if Py.isalpha_ascii c then scan (InName true [c]) r else None
      | InName closing name =>
          if ascii_dec c ">" then
            let tag := Py.lower name in
            if closing then cons (EndTag tag) <$> scan (InText []) r
            else if tag_in tag raw_text_elements then None
            else cons (StartTag tag []) <$> scan (InText []) r
          else if isalnum_ascii c then scan (InName closing (name ++ [c])) r
          else None
      end
  end.

Definition dispatch (self : HtmlToText) (e : markup_event) : HtmlToText :=
  match e with
  | StartTag tag attrs => handle_starttag tag attrs self
  | EndTag tag => handle_endtag tag self
  | Data data => handle_data data self
  end.

(** [parser.feed(html)] on a fresh or running parser. *)
Definition feed (html : str) (self : HtmlToText) : option HtmlToText :=
  (fun events => fold_left dispatch events self) <$> scan (InText []) html.

Definition html_to_text (html : str) : option str :=
  get_text <$> feed html HtmlToText_init.

(** ** Decoded JSON values and the Python operations applied to them *)

#[warnings="-register-all"]
Inductive json :=
| JNull
| JBool (b : bool)
| JInt (n : Z)
| JFloat (x : Q)
| JStr (s : str)
| JList (items : list json)
| JObject (fields : list (str * json)).

(** The exceptions the program can meet. [HTTPError] is a subclass of
    [URLError]; [JSONDecodeError] is a [ValueError]. *)
Inductive exn :=
| URLError
| HTTPError (code : Z) (body : str)
| RuntimeError (arg : json)
| JSONDecodeError
| FileNotFoundError
| AttributeError
| KeyError (key : str)
| TypeError.

Definition is_RuntimeError (e : exn) : bool :=
  match e with
  | RuntimeError _ => true
  | _ => false
  end.

(** What [json.loads] makes of a text: a value, or [JSONDecodeError].
    A file or a response body is kept as what its text decodes to;
    [json.loads (json.dumps v)] is [v]. *)
Inductive document :=
| Garbled
| Parsed (value : json).

Module Dyn.

Fixpoint lookup (key : str) (fields : list (str * json)) : option json :=
  match fields with
  | [] => None
  | (k, v) :: rest => if bool_decide (k = key) then Some v else lookup key rest
  end.

(** [bool(v)] *)
Definition truthy (v : json) : bool :=
  match v with
  | JNull => false
  | JBool b => b
  | JInt n => negb (n =? 0)%Z
  | JFloat x => negb (Qeq_bool x 0)
  | JStr s => match s with [] => false | _ => true end
  | JList l => match l with [] => false | _ => true end
  | JObject f => match f with [] => false | _ => true end
  end.

(** [obj.get(key, default)] *)
Definition get (obj : json) (key : str) (dflt : json) : exn + json :=
  match obj with
  | JObject fields => inr (default dflt (lookup key fields))
  | _ => inl AttributeError
  end.

(** [obj[key]] with a string key *)
Definition getitem (obj : json) (key : str) : exn + json :=
  match obj with
  | JObject fields =>
      match lookup key fields with
      | Some v => inr v
      | None => inl (KeyError key)
      end
  | _ => inl TypeError
  end.

(** [v == s] with [s] a string *)
Definition eq_str (v : json) (s : str) : bool :=
  match v with
  | JStr t => bool_decide (t = s)
  | _ => false
  end.

(** [key in obj] with a string key *)
Definition contains (key : str) (obj : json) : exn + bool :=
  match obj with
  | JObject fields => inr (bool_decide (is_Some (lookup key fields)))
  | JList l => inr (existsb (fun v => eq_str v key) l)
  | JStr s => inr (Py.contains key s)
  | _ => inl TypeError
  end.

(** The elements [for x in obj] visits. *)
Definition iter (obj : json) : exn + list json :=
  match obj with
  | JList l => inr l
  | JStr s => inr (map (fun c => JStr [c]) s)
  | JObject fields => inr (map (fun kv => JStr (fst kv)) fields)
  | _ => inl TypeError
  end.

(** The number behind a value with [isinstance(v, (int, float))];
    [bool] is a subclass of [int]. *)
Definition number (v : json) : option Q :=
  match v with
  | JInt n => Some (inject_Z n)
  | JFloat x => Some x
  | JBool b => Some (if b then 1%Q else 0%Q)
  | _ => None
  end.

(** [v == n] with [n] an integer literal *)
Definition eq_int (v : json) (n : Z) : bool :=
  match number v with
  | Some x => Qeq_bool x (inject_Z n)
  | None => false
  end.

(** [n >= v] with [n] an integer *)
Definition int_ge (n : Z) (v : json) : exn + bool :=
  match number v with
  | Some x => inr (Qle_bool x (inject_Z n))
  | None => inl TypeError
  end.

(** [int(x)] on a float: truncation toward zero *)
Definition int_of_float (x : Q) : Z := Z.quot (Qnum x) (Zpos (Qden x)).

End Dyn.

(** ** The world outside the program *)

Inductive request :=
| POST (url : str) (query : str) (variables : json)
| GET (url : str).

(** What [urlopen] does with a request: it raises [URLError] (no
    connection, timeout), raises [HTTPError] (a status outside 2xx), or
    yields a body. *)
Inductive reply :=
| Unreachable
| Status (code : Z) (body : str)
| Body (content : document).

Record world := mkWorld {
  clock : Q;                       (* what time.time() reads *)
  cache_dir_made : bool;           (* the cache directory exists *)
  files : gmap str document;       (* the files of the cache directory *)
  server : nat -> reply;           (* the reply to the n-th request sent *)
  requests : list request          (* the requests sent so far *)
}.

Definition log_request (req : request) (w : world) : world :=
  {| clock := clock w; cache_dir_made := cache_dir_made w; files := files w;
     server := server w; requests := requests w ++ [req] |}.

Definition make_dir (w : world) : world :=
  {| clock := clock w; cache_dir_made := true; files := files w;
     server := server w; requests := requests w |}.

Definition put_file (path : str) (d : document) (w : world) : world :=
  {| clock := clock w; cache_dir_made := cache_dir_made w;
     files := <[path := d]> (files w);
     server := server w; requests := requests w |}.

(** The environment lets time pass: the clock reads [t] from now on. *)
Definition at_time (t : Q) (w : world) : world :=
  {| clock := t; cache_dir_made := cache_dir_made w; files := files w;
     server := server w; requests := requests w |}.

Inductive outcome (A : Type) :=
| Ret (a : A) (w : world)
| Raise (e : exn) (w : world)
| Diverge.
Arguments Ret {A} a w.
Arguments Raise {A} e w.
Arguments Diverge {A}.

Definition M (A : Type) : Type := world -> outcome A.

#[global] Instance M_ret : MRet M := fun A a w => Ret a w.
#[global] Instance M_bind : MBind M := fun A B k m w =>
  match m w with
  | Ret a w' => k a w'
  | Raise e w' => Raise e w'
  | Diverge => Diverge
  end.

#[global] Instance M_fmap : FMap M := fun A B f m w =>
  match m w with
  | Ret a w' => Ret (f a) w'
  | Raise e w' => Raise e w'
  | Diverge => Diverge
  end.

Definition raise {A} (e : exn) : M A := fun w => Raise e w.

Definition diverge {A} : M A := fun _ => Diverge.

(** The value or the exception of a Python operation *)
Definition lift {A} (r : exn + A) : M A :=
  match r with
  | inl e => raise e
  | inr a => mret a
  end.

(** [try: body except ...: handler]; [handler e] is [None] when no
    [except] clause matches [e]. *)
Definition try_except {A} (body : M A) (handler : exn -> option (M A))
    : M A := fun w =>
  match body w with
  | Raise e w' =>
      match handler e with
      | Some h => h w'
      | None => Raise e w'
      end
  | other => other
  end.

(** [time.time()] *)
Definition time_time : M Q := fun w => Ret (clock w) w.

(** [urlopen(req, timeout=30)] up to the reading of the body *)
Definition urlopen (req : request) : M document := fun w =>
  let w' := log_request req w in
  match server w (length (requests w)) with
  | Unreachable => Raise URLError w'
  | Status code body => Raise (HTTPError code body) w'
  | Body content => Ret content w'
  end.

(** [json.loads] of a text read from a file or a response *)
Definition json_loads (d : document) : M json :=
  match d with
  | Garbled => raise JSONDecodeError
  | Parsed v => mret v
  end.

(** ** Constants *)

Definition GRAPHQL_URL : str := "https://leetcode.com/graphql".
Definition PROBLEM_LIST_URL : str := "https://leetcode.com/api/problems/all/".
Definition LIST_TTL_SECONDS : Z := 24 * 60 * 60.
Definition QUESTION_TTL_SECONDS : Z := 7 * 24 * 60 * 60.

Definition LIST_QUERY : str := "
query problemsetQuestionList($categorySlug: String, $limit: Int, $skip: Int, $filters: QuestionListFilterInput) {
  problemsetQuestionList(categorySlug: $categorySlug, limit: $limit, skip: $skip, filters: $filters) {
    total: totalNum
    questions: data {
      questionId
      questionFrontendId
      title
      titleSlug
      difficulty
      paidOnly
    }
  }
}
".

Definition DETAIL_QUERY : str := "
query question($titleSlug: String!) {
  question(titleSlug: $titleSlug) {
    questionId
    questionFrontendId
    title
    titleSlug
    content
    difficulty
    isPaidOnly
    topicTags {
      name
      slug
    }
  }
}
".

(** ** Cache *)

(** [cache_dir()]: the directory is created when missing. Which
    directory (the environment's or the default one) is not modelled:
    [files] is the content of whichever it is. *)
Definition cache_dir : M unit := fun w => Ret tt (make_dir w).

Definition cache_path (name : str) : M str :=
  cache_dir;; mret name.

(** [path.exists()] *)
Definition path_exists (path : str) : M bool := fun w =>
  Ret (bool_decide (is_Some (files w !! path))) w.

(** [path.read_text()] *)
Definition read_text (path : str) : M document := fun w =>
  match files w !! path with
  | Some d => Ret d w
  | None => Raise FileNotFoundError w
  end.

(** [path.write_text(json.dumps(payload, indent=2))] *)
Definition write_text (path : str) (payload : json) : M unit := fun w =>
  Ret tt (put_file path (Parsed payload) w).

Definition load_cache (name : str) (ttl_seconds : Z) : M json :=
  path ← cache_path name;
  present ← path_exists path;
  if negb present then mret JNull
  else
    loaded ← try_except (Some <$> (read_text path ≫= json_loads))
               (fun e => match e with
                         | JSONDecodeError => Some (mret None)
                         | _ => None
                         end);
    match loaded with
    | None => mret JNull
    | Some payload =>
        fetched_at ← lift (Dyn.get payload "fetched_at" JNull);
        match Dyn.number fetched_at with
        | None => mret JNull
        | Some t =>
            now ← time_time;
            if negb (Qle_bool (now - t) (inject_Z ttl_seconds))
            then mret JNull
            else lift (Dyn.get payload "data" JNull)
        end
    end.

Definition save_cache (name : str) (data : json) : M unit :=
  path ← cache_path name;
  now ← time_time;
  write_text path
    (JObject [("fetched_at", JInt (Dyn.int_of_float now)); ("data", data)]).

(** ** ProblemSource *)

(** [f"{n}"] for an integer *)
Definition decimal (n : Z) : str :=
  list_ascii_of_string (NilZero.string_of_int (Z.to_int n)).

(** The request carries the query and its variables; the fixed headers,
    the session cookie and the operation name (a function of the query
    text) are left out of the record of a request. *)
Definition post_graphql (query : str) (variables : json) : M json :=
  raw ← try_except (urlopen (POST GRAPHQL_URL query variables))
          (fun e => match e with
                    | HTTPError code body =>
                        Some (raise (RuntimeError
                                (JStr ("HTTP " ++ decimal code ++ ": " ++ body))))
                    | _ => None
                    end);
  data ← json_loads raw;
  has_errors ← lift (Dyn.contains "errors" data);
  if has_errors : bool then
    errors ← lift (Dyn.getitem data "errors");
    raise (RuntimeError errors)
  else lift (Dyn.getitem data "data").

Definition list_variables (skip limit : Z) : json :=
  JObject [("categorySlug", JStr ""); ("skip", JInt skip);
           ("limit", JInt limit); ("filters", JObject [])].

(** The [while True] loop of [fetch_problem_list]; one unit of fuel per
    iteration. *)
Fixpoint page_loop (fuel : nat) (all_items : list json) (skip limit : Z)
    : M (list json) :=
  match fuel with
  | O => diverge
  | S fuel' =>
      data ← post_graphql LIST_QUERY (list_variables skip limit);
      problemset ← lift (Dyn.getitem data "problemsetQuestionList");
      items ← lift (Dyn.getitem problemset "questions");
      added ← lift (Dyn.iter items);
      let all_items := all_items ++ added in
      let skip := (skip + limit)%Z in
      total ← lift (Dyn.getitem problemset "total");
      reached ← lift (Dyn.int_ge (Z.of_nat (length all_items)) total);
      if (reached : bool) || negb (Dyn.truthy items) then mret all_items
      else page_loop fuel' all_items skip limit
  end.

Section Source.

(** Python's [str()] on a decoded JSON value. Its result on floats and
    containers is not modelled; no property below depends on it. *)
Variable py_str : json -> str.

Definition rest_item (entry : json) : M json :=
  stat ← lift (Dyn.get entry "stat" (JObject []));
  difficulty_field ← lift (Dyn.get entry "difficulty" (JObject []));
  difficulty ← lift (Dyn.get difficulty_field "level" JNull);
  let diff_label : str :=
    if Dyn.eq_int difficulty 1 then "Easy"
    else if Dyn.eq_int difficulty 2 then "Medium"
    else if Dyn.eq_int difficulty 3 then "Hard"
    else "Unknown" in
  question_id ← lift (Dyn.get stat "question_id" (JStr ""));
  frontend_id ← lift (Dyn.get stat "frontend_question_id" (JStr ""));
  title ← lift (Dyn.get stat "question__title" (JStr ""));
  title_slug ← lift (Dyn.get stat "question__title_slug" (JStr ""));
  paid_only ← lift (Dyn.get entry "paid_only" (JBool false));
  mret (JObject [("questionId", JStr (py_str question_id));
                 ("questionFrontendId", JStr (py_str frontend_id));
                 ("title", title);
                 ("titleSlug", title_slug);
                 ("difficulty", JStr diff_label);
                 ("paidOnly", paid_only)]).

Fixpoint rest_items (entries : list json) : M (list json) :=
  match entries with
  | [] => mret []
  | entry :: rest =>
      item ← rest_item entry;
      items ← rest_items rest;
      mret (item :: items)
  end.

Definition fetch_problem_list_rest : M (list json) :=
  raw ← urlopen (GET PROBLEM_LIST_URL);
  payload ← json_loads raw;
  pairs ← lift (Dyn.get payload "stat_status_pairs" (JList []));
  entries ← lift (Dyn.iter pairs);
  rest_items entries.

Definition fetch_problem_list (fuel : nat) : M json :=
  cached ← load_cache "problem_list.json" LIST_TTL_SECONDS;
  if Dyn.truthy cached then mret cached
  else
    all_items ← try_except (page_loop fuel [] 0 100)
                  (fun e => match e with
                            | RuntimeError _ => Some fetch_problem_list_rest
                            | _ => None
                            end);
    save_cache "problem_list.json" (JList all_items);;
    mret (JList all_items).

End Source.

Definition fetch_question (slug : str) : M json :=
  let cache_name := "question_" ++ slug ++ ".json" in
  cached ← load_cache cache_name QUESTION_TTL_SECONDS;
  if Dyn.truthy cached then mret cached
  else
    data ← post_graphql DETAIL_QUERY (JObject [("titleSlug", JStr slug)]);
    question ← lift (Dyn.getitem data "question");
    save_cache cache_name question;;
    mret question.

(** ** Resolver *)

(** A catalog entry: a dictionary with these keys, each holding a value
    of the type the sources of the catalog give it. *)
Record item := mkItem {
  questionId : str;
  questionFrontendId : str;
  title : str;
  titleSlug : str;
  difficulty : str;
  paidOnly : bool
}.

Definition normalize_text (text : str) : str :=
  Py.sub_ws false (Py.lower (Py.strip text)).

Definition is_number (text : str) : bool := Py.isdigit text.

Fixpoint find_by_id (items : list item) (frontend_id : str) : option item :=
  match items with
  | [] => None
  | it :: rest =>
      if bool_decide (questionFrontendId it = frontend_id) then Some it
      else find_by_id rest frontend_id
  end.

Definition find_matches (items : list item) (query : str) : list item :=
  let q := normalize_text query in
  List.filter (fun it =>
            let title := normalize_text (title it) in
            let slug := normalize_text (titleSlug it) in
            Py.contains q title || Py.contains q slug) items.

(** The entry [find_by_id] finds holds a key, so [if item:] tests that
    there is one. *)
Definition resolve_slug (query : str) (items : list item)
    : option str * option (list item) :=
  if is_number query then
    match find_by_id items query with
    | Some it => (Some (titleSlug it), None)
    | None => (None, None)
    end
  else if Py.contains "-" query && negb (Py.contains " " query) then
    (Some (Py.strip query), None)
  else
    let matches := find_matches items query in
    match matches with
    | [] => (None, None)
    | [it] => (Some (titleSlug it), None)
    | _ => (None, Some matches)
    end.

(** ** Notions used to state the properties *)

(** [p] occurs in [s]. *)
Definition substring (p s : str) : Prop := ∃ a b, s = a ++ p ++ b.

(** [it] is the first entry of [items] whose frontend id is [id]. *)
Definition first_with_id (id : str) (it : item) (items : list item) : Prop :=
  ∃ before after,
    items = before ++ it :: after
    ∧ questionFrontendId it = id
    ∧ Forall (λ x, questionFrontendId x ≠ id) before.

(** The entry matches the free-text query: its normalized title or slug
    contains the normalized query. *)
Definition fuzzy_match (query : str) (it : item) : Prop :=
  substring (normalize_text query) (normalize_text (title it))
  ∨ substring (normalize_text query) (normalize_text (titleSlug it)).

(** The text holds neither of the two characters that start markup. *)
Definition plain_text (t : str) : Prop :=
  Forall (λ c, c ≠ "<"%char ∧ c ≠ "&"%char) t.

(** Every whitespace character of [s] is a space followed by a character
    that is not whitespace. *)
Fixpoint spaced_tail (s : str) : bool :=
  match s with
  | [] => true
  | c :: r =>
      if Py.isspace c
      then bool_decide (c = " "%char)
           && match r with
              | c' :: _ => negb (Py.isspace c')
              | [] => false
              end
           && spaced_tail r
      else spaced_tail r
  end.

(** [s] is a sequence of words separated by single spaces: no line
    break, no tab, no run of spaces, nothing to trim. *)
Definition single_spaced (s : str) : bool :=
  match s with
  | c :: _ => negb (Py.isspace c)
  | [] => true
  end && spaced_tail s.

(** A word of [split]: not empty, no whitespace in it. *)
Definition word (w : str) : Prop :=
  w ≠ [] ∧ ∀ c, c ∈ w → Py.isspace c = false.

Definition starts_clean (s : str) : Prop :=
  ∀ c, head s = Some c → Py.isspace c = false.

Definition ends_clean (s : str) : Prop :=
  ∀ c, last s = Some c → Py.isspace c = false.

(** The cache holds for [name] a well-formed record, not older than
    [ttl] seconds, whose payload is [data]. *)
Definition fresh_record (w : world) (name : str) (ttl : Z) (data : json)
    : Prop :=
  ∃ fields stamp t,
    files w !! name = Some (Parsed (JObject fields))
    ∧ Dyn.lookup "fetched_at" fields = Some stamp
    ∧ Dyn.number stamp = Some t
    ∧ (clock w - t <= inject_Z ttl)%Q
    ∧ Dyn.lookup "data" fields = Some data.

(** The record [save_cache] writes at time [now]. *)
Definition cache_record (now : Q) (data : json) : document :=
  Parsed (JObject [("fetched_at", JInt (Dyn.int_of_float now));
                   ("data", data)]).


(** The computation leaves the files of the cache as they are, however
    it ends. *)
Definition keeps_files {A} (m : M A) : Prop :=
  ∀ w, match m w with
       | Ret _ w' | Raise _ w' => files w' = files w
       | Diverge => True
       end.

(** The computation leaves the files of the cache as they are when it
    ends with an exception. *)
Definition failure_keeps_files {A} (m : M A) : Prop :=
  ∀ w e w', m w = Raise e w' → files w' = files w.

(** The computation never ends with an exception. *)
Definition never_raises {A} (m : M A) : Prop :=
  ∀ w e w', m w ≠ Raise e w'.

(** What [fetch_problem_list] does once the paginated path has raised
    [RuntimeError]. *)
Definition via_rest (py_str : json -> str) : M json :=
  all_items ← fetch_problem_list_rest py_str;
  save_cache "problem_list.json" (JList all_items);;
  mret (JList all_items).

(** One iteration of the pagination loop on the decoded [data] of a
    reply, without its effects: the exception it raises, or the grown
    list and whether the loop stops. *)
Definition page_outcome (data : json) (all_items : list json)
    : exn + (list json * bool) :=
  match Dyn.getitem data "problemsetQuestionList" with
  | inl e => inl e
  | inr problemset =>
      match Dyn.getitem problemset "questions" with
      | inl e => inl e
      | inr items =>
          match Dyn.iter items with
          | inl e => inl e
          | inr added =>
              match Dyn.getitem problemset "total" with
              | inl e => inl e
              | inr total =>
                  match Dyn.int_ge (Z.of_nat (length (all_items ++ added)))
                          total with
                  | inl e => inl e
                  | inr reached =>
                      inr (all_items ++ added,
                           reached || negb (Dyn.truthy items))
                  end
              end
          end
      end
  end.

(** The page a reply carries: its entries and the total it reports. *)
Definition reply_page (r : reply) : option (json * json) :=
  match r with
  | Body (Parsed data) =>
      match Dyn.contains "errors" data with
      | inr false =>
          match Dyn.getitem data "data" with
          | inr d =>
              match Dyn.getitem d "problemsetQuestionList" with
              | inr problemset =>
                  match Dyn.getitem problemset "questions",
                        Dyn.getitem problemset "total" with
                  | inr items, inr total => Some (items, total)
                  | _, _ => None
                  end
              | inl _ => None
              end
          | inl _ => None
          end
      | _ => None
      end
  | _ => None
  end.

(** The total the reply reports, when it is a page and reports a number. *)
Definition reported_total (r : reply) : option Q :=
  match reply_page r with
  | Some (_, total) => Dyn.number total
  | None => None
  end.

(** *** Sample inputs *)

Definition TAB : ascii := "009"%char.
Definition LF : ascii := "010"%char.

Definition two_paragraphs : str := "<p>a</p><p>b</p>".
Definition two_lines : str := ["a"; LF; "b"]%char.

Definition two_sum : item :=
  {| questionId := "1"; questionFrontendId := "1"; title := "Two Sum";
     titleSlug := "two-sum"; difficulty := "Easy"; paidOnly := false |}.
Definition three_sum : item :=
  {| questionId := "15"; questionFrontendId := "15"; title := "3Sum";
     titleSlug := "3sum"; difficulty := "Medium"; paidOnly := false |}.
Definition two_sum_ii : item :=
  {| questionId := "167"; questionFrontendId := "167";
     title := "Two Sum II - Input Array Is Sorted";
     titleSlug := "two-sum-ii-input-array-is-sorted";
     difficulty := "Medium"; paidOnly := false |}.
Definition catalog : list item := [two_sum; three_sum; two_sum_ii].

Definition tab_query : str := "two-sum" ++ [TAB].

(** [str()] on the integers and strings the snapshot carries in the
    fields it is applied to. *)
Definition str_of_scalar (v : json) : str :=
  match v with
  | JStr s => s
  | JInt n => decimal n
  | _ => ""
  end.

Definition start (fs : gmap str document) (srv : nat -> reply) (now : Q)
    : world :=
  {| clock := now; cache_dir_made := false; files := fs; server := srv;
     requests := [] |}.

Definition offline : nat -> reply := fun _ => Unreachable.

(** A page of [k] entries that reports [total]. *)
Definition page (total : Z) (k : nat) : reply :=
  Body (Parsed (JObject
    [("data", JObject
       [("problemsetQuestionList", JObject
          [("total", JInt total);
           ("questions", JList (repeat (JObject []) k))])])])).

(** The snapshot of the alternate source, with one problem. *)
Definition snapshot : reply :=
  Body (Parsed (JObject
    [("stat_status_pairs", JList
       [JObject [("stat", JObject [("question_id", JInt 1);
                                   ("frontend_question_id", JInt 1);
                                   ("question__title", JStr "Two Sum");
                                   ("question__title_slug", JStr "two-sum")]);
                 ("difficulty", JObject [("level", JInt 1)]);
                 ("paid_only", JBool false)]])])).

(** The reply to a detail query. *)
Definition detail_reply : reply :=
  Body (Parsed (JObject
    [("data", JObject
       [("question", JObject [("title", JStr "Two Sum")])])])).

(** The first request gets no connection; the alternate source would
    answer the next one. *)
Definition graphql_down : nat -> reply := fun n =>
  match n with
  | O => Unreachable
  | _ => snapshot
  end.

(** The first request is refused with a status; the alternate source
    answers the next one. *)
Definition graphql_refused : nat -> reply := fun n =>
  match n with
  | O => Status 403 "Forbidden"
  | _ => snapshot
  end.

(** Every page holds one entry and reports one more than the entries
    sent so far. *)
Definition growing_total : nat -> reply := fun n =>
  page (Z.of_nat n + 2) 1.

Definition list_file : str := "problem_list.json".


(** The cache holds a record of a catalog that is too old to be used,
    and there is no connection. *)
Definition stale_catalog_cached : world :=
  start {[ list_file := cache_record 0 (JList [JObject [("title", JStr "Two Sum")]]) ]}
    offline 1000000.


(** Every page holds two entries and reports a total of three. *)
Definition total_three : nat -> reply := fun _ => page 3 2.

Definition first_page : request :=
  POST GRAPHQL_URL LIST_QUERY (list_variables 0 100).


(** ** Further notions *)

(** [s] holds whitespace only. *)
Definition blank (s : str) : bool := forallb Py.isspace s.

(** [s] holds no two line breaks in a row. *)
Fixpoint no_blank_line (s : str) : bool :=
  match s with
  | a :: (b :: _) as r =>
      negb ((if ascii_dec a LF then true else false)
            && (if ascii_dec b LF then true else false))
      && no_blank_line r
  | _ => true
  end.

(** The event does not open a preformatted block. *)
Definition not_pre_start (e : markup_event) : Prop :=
  match e with
  | StartTag tag _ => tag ≠ "pre"
  | _ => True
  end.

(** The parser is outside a preformatted block, none of its chunks is
    empty and their concatenation holds no two line breaks in a row. *)
Definition tidy_parser (self : HtmlToText) : Prop :=
  _in_pre self = false
  ∧ Forall (λ chunk, chunk ≠ []) (_chunks self)
  ∧ no_blank_line (concat (_chunks self)) = true.



(** The computation leaves the clock as it is, however it ends. *)
Definition keeps_clock {A} (m : M A) : Prop :=
  ∀ w, match m w with
       | Ret _ w' | Raise _ w' => clock w' = clock w
       | Diverge => True
       end.

(** The first [n] page requests from [skip] on. *)
Fixpoint page_requests (skip limit : Z) (n : nat) : list request :=
  match n with
  | O => []
  | S n' =>
      POST GRAPHQL_URL LIST_QUERY (list_variables skip limit)
      :: page_requests (skip + limit) limit n'
  end.

Definition detail_request (slug : str) : request :=
  POST GRAPHQL_URL DETAIL_QUERY (JObject [("titleSlug", JStr slug)]).

Definition question_file (slug : str) : str := "question_" ++ slug ++ ".json".

(** The label [fetch_problem_list_rest] gives to a difficulty level. *)
Definition level_label (level : json) : str :=
  if Dyn.eq_int level 1 then "Easy"
  else if Dyn.eq_int level 2 then "Medium"
  else if Dyn.eq_int level 3 then "Hard"
  else "Unknown".

(** The keys of a dictionary, in order. *)
Definition keys_of (v : json) : list str :=
  match v with
  | JObject fields => map fst fields
  | _ => []
  end.

Definition catalog_keys : list str :=
  ["questionId"; "questionFrontendId"; "title"; "titleSlug"; "difficulty";
   "paidOnly"].

(** ** Presenter *)

(** What the colour helpers read of the environment: the variable
    [NO_COLOR], when set, and whether the standard output is a
    terminal. *)
Record terminal := mkTerminal {
  NO_COLOR : option str;
  isatty : bool
}.

Definition supports_color (term : terminal) : bool :=
  match NO_COLOR term with
  | Some (_ :: _) => false
  | _ => isatty term
  end.

Definition ESC : ascii := "027"%char.

Definition color (term : terminal) (text code : str) : str :=
  if negb (supports_color term) then text
  else [ESC] ++ "[" ++ code ++ "m" ++ text ++ [ESC] ++ "[0m".

Definition bold (term : terminal) (text : str) : str := color term text "1".
Definition dim (term : terminal) (text : str) : str := color term text "2".
Definition red (term : terminal) (text : str) : str := color term text "31".
Definition green (term : terminal) (text : str) : str := color term text "32".
Definition yellow (term : terminal) (text : str) : str := color term text "33".
Definition blue (term : terminal) (text : str) : str := color term text "34".

Definition difficulty_color (term : terminal) (difficulty : str) : str :=
  if bool_decide (Py.lower difficulty = "easy") then green term difficulty
  else if bool_decide (Py.lower difficulty = "medium")
       then yellow term difficulty
  else if bool_decide (Py.lower difficulty = "hard") then red term difficulty
  else difficulty.

(** [l[:stop]] *)
Definition slice_to {A} (l : list A) (stop : Z) : list A :=
  if (stop <? 0)%Z
  then take (Z.to_nat (Z.of_nat (length l) + stop)) l
  else take (Z.to_nat stop) l.

(** The line [render_search] makes of one entry. *)
Definition search_line (term : terminal) (it : item) : str :=
  let frontend_id := questionFrontendId it in
  let title := title it in
  let difficulty := difficulty_color term (difficulty it) in
  let paid_mark : str := if paidOnly it then " " ++ dim term "(paid)" else "" in
  bold term frontend_id ++ " " ++ title ++ "  " ++ difficulty ++ paid_mark.

Definition render_search (term : terminal) (matches : list item) (limit : Z)
    : str :=
  let lines := map (search_line term) (slice_to matches limit) in
  match lines with
  | [] => red term "No matches."
  | _ => Py.join [LF] lines
  end.

(** ** The operation name of a query *)

(** A character the pattern [\w] matches: a letter, a digit or another
    numeric character, or the underscore. *)
Definition isword (c : ascii) : bool :=
  let n := Py.code c in
  ((48 <=? n) && (n <=? 57) || (65 <=? n) && (n <=? 90) || (n =? 95)
   || (97 <=? n) && (n <=? 122) || (n =? 170) || (n =? 178) || (n =? 179)
   || (n =? 181) || (n =? 185) || (n =? 186) || (188 <=? n) && (n <=? 190)
   || (192 <=? n) && (n <=? 214) || (216 <=? n) && (n <=? 246)
   || (248 <=? n) && (n <=? 255))%N.

Fixpoint take_while (f : ascii -> bool) (s : str) : str :=
  match s with
  | c :: r => if f c then c :: take_while f r else []
  | [] => []
  end.

Fixpoint drop_while (f : ascii -> bool) (s : str) : str :=
  match s with
  | c :: r => if f c then drop_while f r else s
  | [] => []
  end.

(** The pattern [query\s+(\w+)] matched at the start of [s]: the group,
    if it matches. Both repetitions take all they can, and giving
    characters back opens no other match, a character being of one
    class at most. *)
Definition match_operation (s : str) : option str :=
  if Py.startswith "query" s then
    let after := drop 5 s in
    match take_while Py.isspace after with
    | [] => None
    | _ =>
        match take_while isword (drop_while Py.isspace after) with
        | [] => None
        | name => Some name
        end
    end
  else None.

(** [re.search]: the match at the leftmost position that has one. *)
Fixpoint search_operation (s : str) : option str :=
  match match_operation s with
  | Some name => Some name
  | None =>
      match s with
      | [] => None
      | _ :: r => search_operation r
      end
  end.

Definition _operation_name (query : str) : option str :=
  search_operation query.

(** The body [post_graphql] sends, before it is encoded. *)
Definition graphql_payload (query : str) (variables : json) : json :=
  let payload := [("query", JStr query); ("variables", variables)] in
  match _operation_name query with
  | Some op_name => JObject (payload ++ [("operationName", JStr op_name)])
  | None => JObject payload
  end.

(** *** More sample inputs *)

(** One entry of the snapshot of the alternate source. *)
Definition snapshot_entry : json :=
  JObject [("stat", JObject [("question_id", JInt 1);
                             ("frontend_question_id", JInt 1);
                             ("question__title", JStr "Two Sum");
                             ("question__title_slug", JStr "two-sum")]);
           ("difficulty", JObject [("level", JInt 1)]);
           ("paid_only", JBool false)].

(** A terminal on which [NO_COLOR] is set. *)
Definition plain_terminal : terminal :=
  {| NO_COLOR := Some "1"; isatty := true |}.

Definition list_and_paragraph : str := "<p>a</p><ul><li>b</li></ul>".

Definition padded_block : str := "  x" ++ [LF] ++ " y ".

(** * Properties *)

(** ** Sample runs *)

Example convert_paragraphs :
  html_to_text "<p>a</p><p>b</p>" = Some ["a"; LF; "b"]%char.
Proof. reflexivity. Qed.

Example convert_pre :
  html_to_text ("<pre>  x" ++ [LF] ++ " y</pre>")
  = Some ("x" ++ [LF] ++ " y").
Proof. reflexivity. Qed.

Example convert_code : html_to_text "<code>x</code>" = Some "`x`".
Proof. reflexivity. Qed.

Example convert_list :
  html_to_text "<ul><li>a</li><li>b</li></ul>" = Some ("- a" ++ [LF] ++ "- b").
Proof. reflexivity. Qed.

Example convert_blank : html_to_text ("  " ++ [LF; TAB] ++ " ") = Some "".
Proof. reflexivity. Qed.

Example normalize_title :
  normalize_text ("  Two " ++ [TAB; LF] ++ " SUM ") = "two sum".
Proof. reflexivity. Qed.

Example resolve_by_id : resolve_slug "1" catalog = (Some "two-sum", None).
Proof. reflexivity. Qed.

Example resolve_by_title : resolve_slug "3sum" catalog = (Some "3sum", None).
Proof. reflexivity. Qed.

Example resolve_ambiguous :
  resolve_slug "two sum" catalog = (None, Some [two_sum; two_sum_ii]).
Proof. reflexivity. Qed.

Example resolve_nothing : resolve_slug "four sum" catalog = (None, None).
Proof. reflexivity. Qed.

(** The alternate source, asked first: its snapshot in the shape of the
    catalog. *)
Example rest_snapshot :
  fetch_problem_list_rest str_of_scalar (start ∅ (λ _, snapshot) 0)
  = Ret [JObject [("questionId", JStr "1");
                  ("questionFrontendId", JStr "1");
                  ("title", JStr "Two Sum");
                  ("titleSlug", JStr "two-sum");
                  ("difficulty", JStr "Easy");
                  ("paidOnly", JBool false)]]
      (log_request (GET PROBLEM_LIST_URL) (start ∅ (λ _, snapshot) 0)).
Proof. reflexivity. Qed.

(** Two pages of two entries against a total of three: the loop stops
    after the second. *)
Example pages_until_total :
  page_loop 5 [] 0 100 (start ∅ total_three 0)
  = Ret (repeat (JObject []) 4)
      (log_request (POST GRAPHQL_URL LIST_QUERY (list_variables 100 100))
         (log_request first_page (start ∅ total_three 0))).
Proof. reflexivity. Qed.

(** A detail that is fetched is kept, and returned the next time
    without a request. *)
Example detail_fetched_once :
  (fetch_question "two-sum";; fetch_question "two-sum")
    (start ∅ (λ _, detail_reply) 0)
  = Ret (JObject [("title", JStr "Two Sum")])
      (put_file "question_two-sum.json"
         (cache_record 0 (JObject [("title", JStr "Two Sum")]))
         (log_request
            (POST GRAPHQL_URL DETAIL_QUERY
               (JObject [("titleSlug", JStr "two-sum")]))
            (make_dir (start ∅ (λ _, detail_reply) 0)))).
Proof. reflexivity. Qed.

(** ** Python strings *)

Section StrFacts.

Implicit Types (c : ascii) (s p w : str).

Lemma startswith_spec p s :
  Py.startswith p s = true ↔ ∃ b, s = p ++ b.
Proof.
  revert s. induction p as [|a p IH]; intros s; simpl.
  - split; eauto.
  - destruct s as [|b s].
    + split; [discriminate | intros [? ?]; discriminate].
    + destruct (ascii_dec a b) as [->|Hne].
      * rewrite IH. split; intros [t Ht]; exists t; congruence.
      * split; [discriminate | intros [t Ht]; congruence].
Qed.

Lemma contains_spec p s : Py.contains p s = true ↔ substring p s.
Proof.
  unfold substring. induction s as [|c s IH].
  - simpl. rewrite orb_false_r, startswith_spec. split.
    + intros [b Hb]. exists [], b. done.
    + intros (a & b & Hab). destruct a; [exists b; done | discriminate].
  - cbn [Py.contains]. rewrite orb_true_iff, startswith_spec, IH. split.
    + intros [[b Hb] | (a & b & Hab)].
      * exists [], b. done.
      * exists (c :: a), b. simpl. congruence.
    + intros (a & b & Hab). destruct a as [|c' a].
      * left. exists b. done.
      * right. exists a, b. simpl in Hab. congruence.
Qed.

Lemma contains_char c s : Py.contains [c] s = true ↔ c ∈ s.
Proof.
  rewrite contains_spec. unfold substring. split.
  - intros (a & b & ->). set_solver.
  - intros (a & b & ->)%list_elem_of_split. exists a, b. done.
Qed.

Lemma contains_char_false c s : Py.contains [c] s = false ↔ c ∉ s.
Proof.
  rewrite <- contains_char. destruct (Py.contains [c] s); split; congruence.
Qed.

Lemma lstrip_no_space s :
  (∀ c, c ∈ s → Py.isspace c = false) → Py.lstrip s = s.
Proof.
  destruct s as [|c s]; [done|]. intros H. simpl.
  rewrite (H c); [done | set_solver].
Qed.

Lemma strip_no_space s :
  (∀ c, c ∈ s → Py.isspace c = false) → Py.strip s = s.
Proof.
  intros H. unfold Py.strip, Py.rstrip.
  rewrite (lstrip_no_space s H), lstrip_no_space.
  - apply reverse_involutive.
  - intros c Hc. apply H. by rewrite elem_of_reverse in Hc.
Qed.

End StrFacts.

(** ** MarkupToText *)

Section MarkupFacts.

Implicit Types (c : ascii) (s t w : str) (l : list str).

Lemma lstrip_clean s : starts_clean s → Py.lstrip s = s.
Proof.
  destruct s as [|c s]; [done|]. intros H. simpl. by rewrite (H c).
Qed.

Lemma strip_clean s : starts_clean s → ends_clean s → Py.strip s = s.
Proof.
  intros Hs He. unfold Py.strip, Py.rstrip.
  rewrite (lstrip_clean s Hs), lstrip_clean.
  - apply reverse_involutive.
  - intros c. rewrite head_reverse. apply He.
Qed.

Lemma split_from_nonempty w s : w ≠ [] → Py.split_from w s ≠ [].
Proof.
  revert w. induction s as [|c s IH]; intros w Hw; simpl.
  - by destruct w.
  - destruct (Py.isspace c).
    + by destruct w.
    + apply IH. by destruct w.
Qed.

Lemma split_from_words w s :
  (∀ c, c ∈ w → Py.isspace c = false) → Forall word (Py.split_from w s).
Proof.
  revert w. induction s as [|c s IH]; intros w Hw; simpl.
  - destruct w as [|a w]; [constructor|].
    constructor; [by split | constructor].
  - destruct (Py.isspace c) eqn:Hc.
    + destruct w as [|a w].
      * apply IH. set_solver.
      * constructor; [done|]. apply IH. set_solver.
    + apply IH. intros a [Ha | ->%list_elem_of_singleton]%elem_of_app; auto.
Qed.

Lemma join_cons_cons sep x y l :
  Py.join sep (x :: y :: l) = x ++ sep ++ Py.join sep (y :: l).
Proof. done. Qed.

Lemma join_words_nonempty sep x l : x ≠ [] → Py.join sep (x :: l) ≠ [].
Proof.
  intros Hx. destruct l; [done|]. rewrite join_cons_cons. by destruct x.
Qed.

Lemma join_words_clean l :
  Forall word l → starts_clean (Py.join " " l) ∧ ends_clean (Py.join " " l).
Proof.
  induction 1 as [|x l [Hx Hsp] Hl [IHs IHe]]; [done|].
  destruct l as [|y l].
  - simpl. split; intros c Hc; apply Hsp.
    + by apply head_Some_elem_of.
    + by apply last_Some_elem_of.
  - rewrite join_cons_cons. split; intros c.
    + destruct x as [|a x]; [done|]. intros [= <-]. apply Hsp. set_solver.
    + apply Forall_cons in Hl as [[Hy _] _].
      pose proof (join_words_nonempty " " y l Hy) as Hne.
      rewrite !last_app. destruct (last (Py.join " " (y :: l))) eqn:E.
      * intros [= <-]. by apply IHe.
      * by apply last_None in E.
Qed.

Lemma strip_join_split s :
  Py.strip (Py.join " " (Py.split s)) = Py.join " " (Py.split s).
Proof.
  destruct (join_words_clean (Py.split s)) as [Hs He].
  - apply split_from_words. set_solver.
  - by apply strip_clean.
Qed.

Lemma join_split_from w s :
  spaced_tail s = true →
  w ≠ [] ∨ starts_clean s →
  Py.join " " (Py.split_from w s) = w ++ s.
Proof.
  revert w. induction s as [|c s IH]; intros w Htail Hstart.
  - simpl. rewrite app_nil_r. by destruct w.
  - cbn [spaced_tail Py.split_from] in *. destruct (Py.isspace c) eqn:Hc.
    + apply andb_true_iff in Htail as [[Hsp Hnext]%andb_true_iff Htail].
      apply bool_decide_eq_true in Hsp as ->.
      destruct Hstart as [Hw | Hstart];
        [|by rewrite (Hstart " "%char) in Hc].
      destruct s as [|c' s]; [done|]. apply negb_true_iff in Hnext.
      assert (Py.join " " (Py.split_from [] (c' :: s)) = c' :: s) as Hrest.
      { apply (IH []); [done|]. right. by intros ? [= <-]. }
      destruct w as [|a w]; [done|].
      destruct (Py.split_from [] (c' :: s)) as [|y l] eqn:E.
      { exfalso. simpl in E. rewrite Hnext in E.
        by apply (split_from_nonempty [c'] s). }
      rewrite join_cons_cons, Hrest. done.
    + rewrite IH; [by rewrite <- app_assoc | done | left; by destruct w].
Qed.

Lemma join_split_single_spaced s :
  single_spaced s = true → Py.join " " (Py.split s) = s.
Proof.
  intros [Hhead Htail]%andb_true_iff. apply (join_split_from [] s Htail).
  right. intros c Hc. destruct s; simplify_eq/=. by apply negb_true_iff.
Qed.

Lemma scan_plain_text text t :
  plain_text t → scan (InText text) t = Some (data_event (text ++ t)).
Proof.
  intros Hplain. revert text.
  induction Hplain as [|c t [Hlt Hamp] _ IH]; intros text; simpl.
  - by rewrite app_nil_r.
  - destruct (ascii_dec c "<"); [done|]. destruct (ascii_dec c "&"); [done|].
    by rewrite IH, <- app_assoc.
Qed.

(** Conversion of a text without markup: its whitespace runs are
    collapsed to single spaces and its ends are trimmed. *)
Lemma html_to_text_plain t :
  plain_text t → html_to_text t = Some (Py.join " " (Py.split t)).
Proof.
  intros Hplain. unfold html_to_text, feed.
  rewrite (scan_plain_text [] t Hplain). simpl. f_equal.
  destruct t as [|c t]; [done|].
  unfold data_event, fold_left, dispatch, handle_data. simpl _in_pre.
  cbv iota. set (text := Py.join " " (Py.split (c :: t))).
  pose proof (strip_join_split (c :: t)) as Hstrip. fold text in Hstrip.
  destruct text as [|a text]; [done|].
  unfold get_text. simpl. by rewrite app_nil_r.
Qed.

(** C2, as amended. Converting again the output [t] of a conversion,
    when [t] holds no ['<'] and no ['&'], collapses every whitespace
    run of [t] (a line break as well) to one space; it gives [t] back
    when [t] is made of words separated by single spaces. *)
Theorem html_to_text_again h t :
  html_to_text h = Some t →
  plain_text t →
  html_to_text t = Some (Py.join " " (Py.split t))
  ∧ (single_spaced t = true → html_to_text h ≫= html_to_text = html_to_text h).
Proof.
  intros Hh Hplain. split; [by apply html_to_text_plain|].
  intros Hspaced. rewrite Hh. simpl.
  by rewrite (html_to_text_plain t Hplain), join_split_single_spaced.
Qed.

End MarkupFacts.

(** ** Resolver *)

Section ResolverFacts.

Implicit Types (items : list item) (it : item) (query : str).

Lemma find_by_id_first items query it :
  first_with_id query it items → find_by_id items query = Some it.
Proof.
  intros (before & after & -> & Hid & Hbefore).
  induction Hbefore as [|x before Hx _ IH]; simpl.
  - by rewrite bool_decide_eq_true_2.
  - by rewrite bool_decide_eq_false_2.
Qed.

Lemma find_by_id_none items query :
  Forall (λ x, questionFrontendId x ≠ query) items →
  find_by_id items query = None.
Proof.
  induction 1 as [|x items Hx _ IH]; simpl; [done|].
  by rewrite bool_decide_eq_false_2.
Qed.

(** C4. For a query made of digits only, [resolve_slug] answers with
    the slug of the first catalog entry (in catalog order) whose
    frontend id is the query, and with "not found" when no entry has
    that frontend id; the title and slug matching is never consulted. *)
Theorem resolve_slug_numeric items query :
  is_number query = true →
  (∀ it, first_with_id query it items →
         resolve_slug query items = (Some (titleSlug it), None))
  ∧ (Forall (λ x, questionFrontendId x ≠ query) items →
     resolve_slug query items = (None, None)).
Proof.
  intros Hnum. unfold resolve_slug. rewrite Hnum. split.
  - intros it Hfirst. by rewrite (find_by_id_first _ _ _ Hfirst).
  - intros Hnone. by rewrite (find_by_id_none _ _ Hnone).
Qed.

(** C5. A query that is not a number, contains a hyphen and contains
    no whitespace is returned as the slug, verbatim (trimming changes
    nothing in it), whatever the catalog holds. *)
Theorem resolve_slug_literal items query :
  is_number query = false →
  "-"%char ∈ query →
  Forall (λ c, Py.isspace c = false) query →
  resolve_slug query items = (Some (Py.strip query), None)
  ∧ Py.strip query = query.
Proof.
  intros Hnum Hhyphen Hnows. rewrite Forall_forall in Hnows.
  unfold resolve_slug. rewrite Hnum.
  assert (Py.contains "-" query = true) as -> by by apply contains_char.
  assert (Py.contains " " query = false) as ->.
  { apply contains_char_false. intros Hsp. by apply Hnows in Hsp. }
  split; [done | by apply strip_no_space].
Qed.

Lemma find_matches_spec items query it :
  it ∈ find_matches items query ↔ it ∈ items ∧ fuzzy_match query it.
Proof.
  unfold find_matches, fuzzy_match.
  rewrite !list_elem_of_In, filter_In, orb_true_iff, !contains_spec. done.
Qed.

Lemma find_matches_sublist items query :
  sublist (find_matches items query) items.
Proof.
  unfold find_matches. induction items as [|x items IH]; simpl; [done|].
  destruct (_ || _); by constructor.
Qed.

(** C6, as amended. For a query that is not a number and that does
    not both contain a hyphen and lack a space character,
    [resolve_slug] collects exactly the catalog entries whose
    normalized title or slug contains the normalized query, in catalog
    order: none gives "not found", one gives its slug, several give
    the collected entries. *)
Theorem resolve_slug_fuzzy items query :
  is_number query = false →
  ¬ ("-"%char ∈ query ∧ " "%char ∉ query) →
  let matches := find_matches items query in
  (∀ it, it ∈ matches ↔ it ∈ items ∧ fuzzy_match query it)
  ∧ sublist matches items
  ∧ resolve_slug query items =
      match matches with
      | [] => (None, None)
      | [it] => (Some (titleSlug it), None)
      | _ => (None, Some matches)
      end.
Proof.
  intros Hnum Hrule matches. split; [|split].
  - intros it. apply find_matches_spec.
  - apply find_matches_sublist.
  - unfold resolve_slug. rewrite Hnum.
    destruct (Py.contains "-" query && negb (Py.contains " " query)) eqn:E;
      [|done].
    exfalso. apply Hrule. apply andb_true_iff in E as [E1 E2].
    apply negb_true_iff in E2.
    by rewrite <- contains_char, <- contains_char_false.
Qed.

End ResolverFacts.

(** ** Cache *)

Section CacheFacts.

Implicit Types (w : world) (name : str) (ttl : Z) (data : json).

(** [load_cache] in closed form: it creates the directory and reads;
    it writes no file and sends nothing. *)
Lemma load_cache_run name ttl w :
  load_cache name ttl w =
    match files w !! name with
    | None | Some Garbled => Ret JNull (make_dir w)
    | Some (Parsed payload) =>
        match Dyn.get payload "fetched_at" JNull with
        | inl e => Raise e (make_dir w)
        | inr stamp =>
            match Dyn.number stamp with
            | None => Ret JNull (make_dir w)
            | Some t =>
                if Qle_bool (clock w - t) (inject_Z ttl)
                then match Dyn.get payload "data" JNull with
                     | inl e => Raise e (make_dir w)
                     | inr d => Ret d (make_dir w)
                     end
                else Ret JNull (make_dir w)
            end
        end
    end.
Proof.
  unfold load_cache, cache_path, cache_dir, path_exists, read_text,
    try_except, mbind, M_bind, mret, M_ret, fmap, M_fmap. simpl.
  destruct (files w !! name) as [[|payload]|] eqn:E; simpl; rewrite ?E;
    simpl; try done.
  unfold lift, raise.
  destruct (Dyn.get payload "fetched_at" JNull) as [e|stamp]; [done|].
  simpl. destruct (Dyn.number stamp) as [t|]; [|done].
  change (clock (make_dir w)) with (clock w).
  destruct (Qle_bool (clock w - t) (inject_Z ttl)); simpl; [|done].
  by destruct (Dyn.get payload "data" JNull).
Qed.




Lemma load_cache_fresh name ttl w data :
  fresh_record w name ttl data →
  load_cache name ttl w = Ret data (make_dir w).
Proof.
  intros (fields & stamp & t & E & Hstamp & Hnum & Hage & Hdata).
  rewrite load_cache_run, E. simpl. rewrite Hstamp. simpl. rewrite Hnum.
  apply Qle_bool_iff in Hage. rewrite Hage, Hdata. done.
Qed.

(** C3, at the failing input. The cache file of the catalog holds the
    JSON text of an empty list: [load_cache] does not answer with a
    miss, it raises [AttributeError]. *)
Theorem load_cache_raises_on_list :
  load_cache list_file LIST_TTL_SECONDS
    (start {[ list_file := Parsed (JList []) ]} offline 0)
  = Raise AttributeError
      (make_dir (start {[ list_file := Parsed (JList []) ]} offline 0)).
Proof. by rewrite load_cache_run. Qed.

(** A record that decodes to something else than an object makes
    [load_cache] raise. *)
Lemma load_cache_not_object name ttl w v :
  files w !! name = Some (Parsed v) →
  (∀ fields, v ≠ JObject fields) →
  load_cache name ttl w = Raise AttributeError (make_dir w).
Proof.
  intros E Hshape. rewrite load_cache_run, E.
  destruct v; try done. by destruct (Hshape fields).
Qed.




End CacheFacts.

(** ** ProblemSource *)

Section SourceFacts.

Variable py_str : json -> str.

Implicit Types (w : world) (fuel : nat) (e : exn) (data : json).

(** [post_graphql] in closed form. *)
Lemma post_graphql_run query variables w :
  post_graphql query variables w =
    let w' := log_request (POST GRAPHQL_URL query variables) w in
    match server w (length (requests w)) with
    | Unreachable => Raise URLError w'
    | Status code body =>
        Raise (RuntimeError (JStr ("HTTP " ++ decimal code ++ ": " ++ body)))
          w'
    | Body Garbled => Raise JSONDecodeError w'
    | Body (Parsed data) =>
        match Dyn.contains "errors" data with
        | inl e => Raise e w'
        | inr true =>
            match Dyn.getitem data "errors" with
            | inl e => Raise e w'
            | inr errors => Raise (RuntimeError errors) w'
            end
        | inr false =>
            match Dyn.getitem data "data" with
            | inl e => Raise e w'
            | inr d => Ret d w'
            end
        end
    end.
Proof.
  unfold post_graphql, urlopen, try_except, mbind, M_bind. simpl.
  destruct (server w (length (requests w))) as [|code body|[|data]];
    try done.
  simpl. unfold lift, raise.
  destruct (Dyn.contains "errors" data) as [e|[|]]; try done; simpl.
  - by destruct (Dyn.getitem data "errors").
  - by destruct (Dyn.getitem data "data").
Qed.

(** One iteration of the loop. *)
Lemma page_loop_step fuel all_items skip limit w :
  page_loop (S fuel) all_items skip limit w =
    match post_graphql LIST_QUERY (list_variables skip limit) w with
    | Ret data w' =>
        match page_outcome data all_items with
        | inl e => Raise e w'
        | inr (all_items', true) => Ret all_items' w'
        | inr (all_items', false) =>
            page_loop fuel all_items' (skip + limit) limit w'
        end
    | Raise e w' => Raise e w'
    | Diverge => Diverge
    end.
Proof.
  cbn [page_loop]. unfold mbind at 1, M_bind at 1.
  destruct (post_graphql _ _ w) as [data w'|e w'|]; try done.
  unfold page_outcome, mbind, M_bind, lift, raise.
  destruct (Dyn.getitem data "problemsetQuestionList") as [e|ps]; [done|].
  simpl. destruct (Dyn.getitem ps "questions") as [e|items]; [done|].
  simpl. destruct (Dyn.iter items) as [e|added]; [done|].
  simpl. destruct (Dyn.getitem ps "total") as [e|total]; [done|].
  simpl. destruct (Dyn.int_ge _ total) as [e|reached]; [done|].
  simpl. by destruct (reached || negb (Dyn.truthy items)).
Qed.

Lemma iter_truthy items added :
  Dyn.iter items = inr added → Dyn.truthy items = true → added ≠ [].
Proof.
  destruct items as [| | | |s|l|f]; simpl; try done; intros [= <-].
  - by destruct s.
  - by destruct l.
  - by destruct f.
Qed.

(** What a reply must be for the loop to go on after it: a page that
    adds an entry and reports more than the entries gathered. *)
Lemma page_continues query variables all_items all_items' w data w' :
  post_graphql query variables w = Ret data w' →
  page_outcome data all_items = inr (all_items', false) →
  w' = log_request (POST GRAPHQL_URL query variables) w
  ∧ (length all_items < length all_items')%nat
  ∧ ∃ x, reported_total (server w (length (requests w))) = Some x
         ∧ ¬ (x <= inject_Z (Z.of_nat (length all_items')))%Q.
Proof.
  rewrite post_graphql_run. unfold reported_total, reply_page, page_outcome.
  cbv zeta. destruct (server w (length (requests w))) as [| |[|reply]];
    try done.
  destruct (Dyn.contains "errors" reply) as [?|[|]]; try done.
  { by destruct (Dyn.getitem reply "errors"). }
  destruct (Dyn.getitem reply "data") as [?|d]; [done|]. intros [= -> <-].
  destruct (Dyn.getitem data "problemsetQuestionList") as [?|ps]; [done|].
  destruct (Dyn.getitem ps "questions") as [?|items]; [done|].
  destruct (Dyn.iter items) as [?|added] eqn:Hiter; [done|].
  destruct (Dyn.getitem ps "total") as [?|total]; [done|].
  unfold Dyn.int_ge. destruct (Dyn.number total) as [x|]; [|done].
  intros [= <- [Hreached Htruthy%negb_false_iff]%orb_false_iff].
  split; [done|]. split.
  - pose proof (iter_truthy _ _ Hiter Htruthy). rewrite length_app.
    destruct added; simpl; [done | lia].
  - exists x. split; [done|]. rewrite <- Qle_bool_iff. by rewrite Hreached.
Qed.

Lemma page_loop_bounded (T : Z) n all_items skip w :
  (∀ k x, reported_total (server w k) = Some x → (x <= inject_Z T)%Q) →
  (T - Z.of_nat (length all_items) <= Z.of_nat n)%Z →
  page_loop (S n) all_items skip 100 w ≠ Diverge.
Proof.
  revert all_items skip w.
  induction n as [|n IH]; intros all_items skip w Hbound Hleft;
    rewrite page_loop_step;
    destruct (post_graphql _ _ w) as [data w'|e w'|] eqn:Hpost;
    try done;
    try (rewrite post_graphql_run in Hpost; cbv zeta in Hpost;
         by repeat case_match);
    destruct (page_outcome data all_items) as [e|[all_items' [|]]] eqn:Hout;
    try done;
    destruct (page_continues _ _ _ _ _ _ _ Hpost Hout)
      as (-> & Hgrow & x & Htotal & Hmore);
    apply Hbound in Htotal;
    assert (Z.of_nat (length all_items') < T)%Z as Hlt
      by (apply Z.lt_nge; intros Hle; apply Hmore;
          eapply Qle_trans; [exact Htotal | by rewrite <- Zle_Qle]).
  - lia.
  - apply IH; [done | lia].
Qed.

(** More fuel does not change the result of a loop that ended. *)
Lemma page_loop_more_fuel fuel all_items skip limit w :
  page_loop fuel all_items skip limit w ≠ Diverge →
  page_loop (S fuel) all_items skip limit w
  = page_loop fuel all_items skip limit w.
Proof.
  revert all_items skip w. induction fuel as [|fuel IH];
    intros all_items skip w Hend; [done|].
  rewrite (page_loop_step (S fuel)). rewrite page_loop_step in Hend |- *.
  destruct (post_graphql _ _ w) as [data w'|e w'|]; try done.
  destruct (page_outcome data all_items) as [e|[all_items' [|]]]; try done.
  by apply IH.
Qed.

Lemma page_loop_enough_fuel fuel fuel' all_items skip limit w :
  page_loop fuel all_items skip limit w ≠ Diverge →
  fuel ≤ fuel' →
  page_loop fuel' all_items skip limit w
  = page_loop fuel all_items skip limit w.
Proof.
  intros Hend. induction 1 as [|fuel' _ IH]; [done|].
  rewrite page_loop_more_fuel; [done|]. by rewrite IH.
Qed.

(** The loop on a reply that carries a page. *)
Lemma page_loop_on_page fuel all_items skip w l total x :
  reply_page (server w (length (requests w))) = Some (JList l, total) →
  Dyn.number total = Some x →
  page_loop (S fuel) all_items skip 100 w =
    let w' :=
      log_request (POST GRAPHQL_URL LIST_QUERY (list_variables skip 100)) w in
    if Qle_bool x (inject_Z (Z.of_nat (length (all_items ++ l))))
       || bool_decide (l = [])
    then Ret (all_items ++ l) w'
    else page_loop fuel (all_items ++ l) (skip + 100) 100 w'.
Proof.
  intros Hpage Hnum. rewrite page_loop_step, post_graphql_run. cbv zeta.
  unfold reply_page in Hpage. unfold page_outcome.
  destruct (server w (length (requests w))) as [| |[|reply]]; try done.
  destruct (Dyn.contains "errors" reply) as [?|[|]]; try done.
  destruct (Dyn.getitem reply "data") as [?|d]; [done|].
  destruct (Dyn.getitem d "problemsetQuestionList") as [?|ps]; [done|].
  destruct (Dyn.getitem ps "questions") as [?|items]; [done|].
  destruct (Dyn.getitem ps "total") as [?|total']; [done|].
  injection Hpage as -> ->. simpl Dyn.iter. cbv iota.
  unfold Dyn.int_ge. rewrite Hnum.
  assert (negb (Dyn.truthy (JList l)) = bool_decide (l = [])) as ->
    by by destruct l.
  by destruct (_ || _).
Qed.

(** C9, as amended. When the totals the server reports are bounded
    (as is a total that stays the same, right or wrong), the
    pagination loop ends, and with any larger fuel it ends the same
    way. On a reply that carries a page, it stops at once when the
    entries gathered reach the reported total or the page is empty,
    and asks for the next page otherwise. *)
Theorem pagination_ends_when_totals_bounded w (T : Z) :
  (∀ k x, reported_total (server w k) = Some x → (x <= inject_Z T)%Q) →
  (∃ fuel,
      page_loop fuel [] 0 100 w ≠ Diverge
      ∧ ∀ fuel', fuel ≤ fuel' →
                 page_loop fuel' [] 0 100 w = page_loop fuel [] 0 100 w)
  ∧ (∀ fuel all_items skip v l total x,
        reply_page (server v (length (requests v))) = Some (JList l, total) →
        Dyn.number total = Some x →
        page_loop (S fuel) all_items skip 100 v =
          let v' :=
            log_request
              (POST GRAPHQL_URL LIST_QUERY (list_variables skip 100)) v in
          if Qle_bool x (inject_Z (Z.of_nat (length (all_items ++ l))))
             || bool_decide (l = [])
          then Ret (all_items ++ l) v'
          else page_loop fuel (all_items ++ l) (skip + 100) 100 v').
Proof.
  intros Hbound. split.
  - exists (S (Z.to_nat T)).
    assert (page_loop (S (Z.to_nat T)) [] 0 100 w ≠ Diverge) as Hend
      by (apply (page_loop_bounded T); [done | simpl; lia]).
    split; [done|]. intros fuel' Hle. by apply page_loop_enough_fuel.
  - intros fuel all_items skip v l total x Hpage Hnum.
    by apply (page_loop_on_page _ _ _ _ _ total).
Qed.

Lemma reply_page_page total k :
  reply_page (page total k) = Some (JList (repeat (JObject []) k), JInt total).
Proof. done. Qed.

Lemma growing_total_diverges fuel all_items skip w :
  server w = growing_total →
  length (requests w) = length all_items →
  page_loop fuel all_items skip 100 w = Diverge.
Proof.
  revert all_items skip w. induction fuel as [|fuel IH];
    intros all_items skip w Hsrv Hlen; [done|].
  rewrite (page_loop_on_page _ _ _ _ [JObject []]
             (JInt (Z.of_nat (length (requests w)) + 2))
             (inject_Z (Z.of_nat (length (requests w)) + 2)));
    [|by rewrite Hsrv|done].
  cbv zeta. rewrite length_app, Hlen. simpl length.
  destruct (Qle_bool _ _) eqn:Hle.
  - apply Qle_bool_iff in Hle. rewrite <- Zle_Qle in Hle. lia.
  - simpl. apply IH; [done|]. simpl. rewrite !length_app. simpl. lia.
Qed.

(** [fetch_problem_list] after a miss of the cache. *)
Lemma fetch_problem_list_miss fuel w cached w1 :
  load_cache "problem_list.json" LIST_TTL_SECONDS w = Ret cached w1 →
  Dyn.truthy cached = false →
  fetch_problem_list py_str fuel w =
    match page_loop fuel [] 0 100 w1 with
    | Ret all_items w2 =>
        Ret (JList all_items)
          (put_file "problem_list.json"
             (cache_record (clock w2) (JList all_items)) (make_dir w2))
    | Raise e w2 =>
        if is_RuntimeError e then via_rest py_str w2 else Raise e w2
    | Diverge => Diverge
    end.
Proof.
  intros Hload Hmiss. unfold fetch_problem_list.
  unfold mbind at 1, M_bind at 1. rewrite Hload, Hmiss.
  unfold mbind at 1, M_bind at 1, try_except.
  destruct (page_loop fuel [] 0 100 w1) as [all_items w2|e w2|]; try done.
  by destruct e.
Qed.

(** How a page request fails, by the reply it gets. *)
Lemma page_loop_failure fuel all_items skip w :
  let w' :=
    log_request (POST GRAPHQL_URL LIST_QUERY (list_variables skip 100)) w in
  match server w (length (requests w)) with
  | Unreachable =>
      page_loop (S fuel) all_items skip 100 w = Raise URLError w'
  | Status code body =>
      ∃ arg, page_loop (S fuel) all_items skip 100 w
             = Raise (RuntimeError arg) w'
  | Body (Parsed (JObject fields)) =>
      ∀ errors, Dyn.lookup "errors" fields = Some errors →
                page_loop (S fuel) all_items skip 100 w
                = Raise (RuntimeError errors) w'
  | _ => True
  end.
Proof.
  intros w'. rewrite page_loop_step, post_graphql_run. cbv zeta.
  destruct (server w (length (requests w))) as [|code body|[|[]]]; eauto.
  intros errors Herr. simpl. rewrite Herr.
  by rewrite bool_decide_eq_true_2 by eauto.
Qed.

(** C1, as amended. After a miss of the cache, when the paginated path
    fails with [RuntimeError], which is what a status outside 2xx and
    an error payload are turned into, [fetch_problem_list] goes on
    with the alternate source instead of surfacing that failure. Any
    other exception of the paginated path, the [URLError] of a
    connection that fails among them, reaches the caller as it is,
    and the alternate source is not asked. *)
Theorem fallback_on_endpoint_failure fuel w cached w1 e w2 :
  load_cache "problem_list.json" LIST_TTL_SECONDS w = Ret cached w1 →
  Dyn.truthy cached = false →
  page_loop fuel [] 0 100 w1 = Raise e w2 →
  fetch_problem_list py_str fuel w
  = (if is_RuntimeError e then via_rest py_str w2 else Raise e w2)
  ∧ ∀ fuel' all_items skip v,
      let v' :=
        log_request
          (POST GRAPHQL_URL LIST_QUERY (list_variables skip 100)) v in
      match server v (length (requests v)) with
      | Unreachable =>
          page_loop (S fuel') all_items skip 100 v = Raise URLError v'
      | Status code body =>
          ∃ arg, page_loop (S fuel') all_items skip 100 v
                 = Raise (RuntimeError arg) v'
      | Body (Parsed (JObject fields)) =>
          ∀ errors, Dyn.lookup "errors" fields = Some errors →
                    page_loop (S fuel') all_items skip 100 v
                    = Raise (RuntimeError errors) v'
      | _ => True
      end.
Proof.
  intros Hload Hmiss Hfail. split.
  - by rewrite (fetch_problem_list_miss _ _ _ _ Hload Hmiss), Hfail.
  - intros. apply page_loop_failure.
Qed.


End SourceFacts.

(** ** The cache under a failing fetch *)

Create HintDb keeps.

(** Case analysis on a scrutinee that holds no other case analysis. *)
Ltac inner_case :=
  match goal with
  | |- context [match ?x with _ => _ end] =>
      lazymatch x with
      | context [match _ with _ => _ end] => fail
      | _ => destruct x
      end
  end.

Section KeepsFiles.

Variable py_str : json -> str.

Lemma keeps_ret {A} (a : A) : keeps_files (mret a).
Proof. by intros w. Qed.

Lemma keeps_raise {A} e : keeps_files (@raise A e).
Proof. by intros w. Qed.

Lemma keeps_lift {A} (r : exn + A) : keeps_files (lift r).
Proof. destruct r; [apply keeps_raise | apply keeps_ret]. Qed.

Lemma keeps_bind {A B} (m : M A) (k : A → M B) :
  keeps_files m → (∀ a, keeps_files (k a)) → keeps_files (m ≫= k).
Proof.
  intros Hm Hk w. unfold mbind, M_bind. specialize (Hm w).
  destruct (m w) as [a w1|e w1|]; try done.
  specialize (Hk a w1). destruct (k a w1); congruence.
Qed.

Lemma keeps_try {A} (body : M A) handler :
  keeps_files body →
  (∀ e h, handler e = Some h → keeps_files h) →
  keeps_files (try_except body handler).
Proof.
  intros Hbody Hhandler w. unfold try_except. specialize (Hbody w).
  destruct (body w) as [a w1|e w1|]; try done.
  destruct (handler e) as [h|] eqn:E; [|done].
  specialize (Hhandler e h E w1). destruct (h w1); congruence.
Qed.

Lemma keeps_urlopen req : keeps_files (urlopen req).
Proof. intros w. unfold urlopen. by destruct (server w _). Qed.

Lemma keeps_json_loads d : keeps_files (json_loads d).
Proof. destruct d; [apply keeps_raise | apply keeps_ret]. Qed.

Lemma keeps_load_cache name ttl : keeps_files (load_cache name ttl).
Proof. intros w. rewrite load_cache_run. by repeat inner_case. Qed.

Lemma keeps_post_graphql query variables :
  keeps_files (post_graphql query variables).
Proof.
  intros w. rewrite post_graphql_run. cbv zeta. by repeat inner_case.
Qed.

#[local] Hint Resolve keeps_ret keeps_raise keeps_lift keeps_urlopen
  keeps_json_loads keeps_load_cache keeps_post_graphql : keeps.

#[local] Ltac keeps :=
  repeat first
    [ progress auto with keeps
    | apply keeps_bind; [|intros ?]
    | match goal with |- keeps_files (if ?b then _ else _) => destruct b end ].

Lemma keeps_page_loop fuel all_items skip limit :
  keeps_files (page_loop fuel all_items skip limit).
Proof.
  revert all_items skip. induction fuel as [|fuel IH]; intros all_items skip.
  - by intros w.
  - cbn [page_loop]. keeps.
Qed.

Lemma keeps_rest_item entry : keeps_files (rest_item py_str entry).
Proof. unfold rest_item. keeps. Qed.

Lemma keeps_rest_items entries : keeps_files (rest_items py_str entries).
Proof.
  induction entries as [|entry entries IH]; cbn [rest_items]; keeps.
Qed.

Lemma keeps_fetch_problem_list_rest :
  keeps_files (fetch_problem_list_rest py_str).
Proof. unfold fetch_problem_list_rest. keeps. apply keeps_rest_items. Qed.

Lemma failure_keeps_bind {A B} (m : M A) (k : A → M B) :
  keeps_files m → (∀ a, failure_keeps_files (k a)) →
  failure_keeps_files (m ≫= k).
Proof.
  intros Hm Hk w e w'. unfold mbind, M_bind. specialize (Hm w).
  destruct (m w) as [a w1|e1 w1|]; try done.
  - intros Hraise%Hk. congruence.
  - by intros [= -> ->].
Qed.

Lemma failure_keeps_never {A} (m : M A) :
  never_raises m → failure_keeps_files m.
Proof. intros Hm w e w' Hraise. by apply Hm in Hraise. Qed.

Lemma save_never_raises {A} name data (a : A) :
  never_raises (save_cache name data;; mret a).
Proof. by intros w e w'. Qed.

Lemma ret_never_raises {A} (a : A) : never_raises (mret a).
Proof. by intros w e w'. Qed.

Lemma failure_keeps_fetch_problem_list fuel :
  failure_keeps_files (fetch_problem_list py_str fuel).
Proof.
  unfold fetch_problem_list.
  apply failure_keeps_bind; [apply keeps_load_cache|]. intros cached.
  destruct (Dyn.truthy cached);
    [apply failure_keeps_never, ret_never_raises|].
  apply failure_keeps_bind;
    [|intros; apply failure_keeps_never, save_never_raises].
  apply keeps_try; [apply keeps_page_loop|].
  intros [] h [= <-]. apply keeps_fetch_problem_list_rest.
Qed.

Lemma failure_keeps_fetch_question slug :
  failure_keeps_files (fetch_question slug).
Proof.
  unfold fetch_question.
  apply failure_keeps_bind; [apply keeps_load_cache|]. intros cached.
  destruct (Dyn.truthy cached);
    [apply failure_keeps_never, ret_never_raises|].
  apply failure_keeps_bind; [apply keeps_post_graphql|]. intros data.
  apply failure_keeps_bind; [apply keeps_lift|]. intros question.
  apply failure_keeps_never, save_never_raises.
Qed.

(** C10. When [fetch_problem_list] or [fetch_question] ends with an
    exception, the files of the cache are the ones it started with:
    [save_cache] runs only once the fetch has its result. *)
Theorem failed_fetch_keeps_cache w e w' :
  (∀ fuel, fetch_problem_list py_str fuel w = Raise e w' →
           files w' = files w)
  ∧ (∀ slug, fetch_question slug w = Raise e w' → files w' = files w).
Proof.
  split.
  - intros fuel. apply failure_keeps_fetch_problem_list.
  - intros slug. apply failure_keeps_fetch_question.
Qed.

End KeepsFiles.

(** ** The properties at sample inputs *)

(** C1 as stated fails: the cache is empty and the first page request
    gets no connection. [fetch_problem_list] raises that [URLError];
    the alternate source, which would have answered, is not asked. *)
Lemma transport_failure_is_surfaced :
  fetch_problem_list str_of_scalar 1 (start ∅ graphql_down 0)
  = Raise URLError (log_request first_page (make_dir (start ∅ graphql_down 0)))
  ∧ ∃ v w,
      via_rest str_of_scalar
        (log_request first_page (make_dir (start ∅ graphql_down 0)))
      = Ret v w.
Proof. split; [reflexivity|]. eexists _, _. reflexivity. Qed.

Lemma fallback_on_endpoint_failure_witness :
  fetch_problem_list str_of_scalar 1 (start ∅ graphql_refused 0)
  = via_rest str_of_scalar
      (log_request first_page (make_dir (start ∅ graphql_refused 0))).
Proof.
  apply (fallback_on_endpoint_failure str_of_scalar 1
           (start ∅ graphql_refused 0) JNull
           (make_dir (start ∅ graphql_refused 0))
           (RuntimeError (JStr "HTTP 403: Forbidden"))
           (log_request first_page (make_dir (start ∅ graphql_refused 0))));
    reflexivity.
Defined.

(** C2 as stated fails: the two paragraphs convert to two lines, and the
    two lines convert to one. *)
Lemma html_to_text_not_idempotent :
  html_to_text two_paragraphs = Some two_lines
  ∧ html_to_text two_lines = Some "a b"
  ∧ html_to_text two_paragraphs ≫= html_to_text
    ≠ html_to_text two_paragraphs.
Proof. repeat split. discriminate. Qed.

Lemma html_to_text_again_witness :
  html_to_text "<p>a b</p>" ≫= html_to_text = html_to_text "<p>a b</p>".
Proof.
  apply (html_to_text_again "<p>a b</p>" "a b"); [reflexivity | | reflexivity].
  repeat constructor; discriminate.
Defined.

Lemma resolve_slug_numeric_witness :
  resolve_slug "15" catalog = (Some "3sum", None)
  ∧ resolve_slug "42" catalog = (None, None).
Proof.
  split.
  - apply (proj1 (resolve_slug_numeric catalog "15" eq_refl) three_sum).
    exists [two_sum], [two_sum_ii]. repeat split. repeat constructor.
    discriminate.
  - apply (proj2 (resolve_slug_numeric catalog "42" eq_refl)).
    repeat constructor; discriminate.
Defined.

Lemma resolve_slug_literal_witness :
  resolve_slug "no-such-problem" catalog = (Some "no-such-problem", None).
Proof.
  apply (resolve_slug_literal catalog "no-such-problem" eq_refl).
  - repeat constructor.
  - repeat constructor.
Defined.

(** C6 as stated fails: the query holds a tab, so it is not free of
    whitespace, and two entries match it; [resolve_slug] does not answer
    with these two entries but takes the query for a slug. *)
Lemma resolve_slug_tab_query :
  is_number tab_query = false
  ∧ Py.isspace TAB = true ∧ TAB ∈ tab_query
  ∧ find_matches catalog tab_query = [two_sum; two_sum_ii]
  ∧ resolve_slug tab_query catalog = (Some "two-sum", None).
Proof. repeat split. repeat constructor. Qed.

Lemma resolve_slug_fuzzy_witness :
  resolve_slug "two  SUM" catalog = (None, Some [two_sum; two_sum_ii]).
Proof.
  apply (resolve_slug_fuzzy catalog "two  SUM" eq_refl).
  intros [_ Hnospace]. apply Hnospace. repeat constructor.
Defined.





(** C9 as stated fails: against a server whose reported total grows
    with every page, the loop never ends. *)
Lemma pagination_may_not_end :
  ¬ ∀ w, ∃ fuel, page_loop fuel [] 0 100 w ≠ Diverge.
Proof.
  intros Hends. destruct (Hends (start ∅ growing_total 0)) as [fuel Hfuel].
  apply Hfuel. by apply growing_total_diverges.
Qed.

Lemma pagination_ends_when_totals_bounded_witness :
  ∃ fuel,
    page_loop fuel [] 0 100 (start ∅ total_three 0) ≠ Diverge
    ∧ ∀ fuel', fuel ≤ fuel' →
               page_loop fuel' [] 0 100 (start ∅ total_three 0)
               = page_loop fuel [] 0 100 (start ∅ total_three 0).
Proof.
  apply (pagination_ends_when_totals_bounded (start ∅ total_three 0) 3).
  intros k x [= <-]. by vm_compute.
Defined.

Lemma failed_fetch_keeps_cache_witness :
  files (log_request first_page (make_dir stale_catalog_cached))
  = files stale_catalog_cached.
Proof.
  apply (proj1 (failed_fetch_keeps_cache str_of_scalar stale_catalog_cached
                  URLError
                  (log_request first_page (make_dir stale_catalog_cached))) 1).
  reflexivity.
Defined.

(** * Further properties *)

(** ** Trimming, splitting and joining *)

Section TrimFacts.

Implicit Types (c : ascii) (s t w : str) (l : list str).

Lemma lstrip_blank s : blank s = true → Py.lstrip s = [].
Proof.
  induction s as [|c s IH]; [done|]. simpl.
  intros [-> Hs]%andb_true_iff. by apply IH.
Qed.

Lemma lstrip_snoc s c :
  Py.lstrip (s ++ [c]) =
    if blank s then (if Py.isspace c then [] else [c])
    else Py.lstrip s ++ [c].
Proof.
  induction s as [|a s IH]; simpl; [done|].
  destruct (Py.isspace a); simpl; [apply IH | done].
Qed.

Lemma blank_reverse s : blank (reverse s) = blank s.
Proof.
  unfold blank. induction s as [|c s IH]; [done|].
  rewrite reverse_cons, forallb_app, IH. simpl.
  rewrite andb_true_r. apply andb_comm.
Qed.

Lemma rstrip_blank s : blank s = true → Py.rstrip s = [].
Proof.
  intros Hs. unfold Py.rstrip. rewrite lstrip_blank; [done|].
  by rewrite blank_reverse.
Qed.

(** [rstrip] from the left end. *)
Lemma rstrip_cons c s :
  Py.rstrip (c :: s) = if blank (c :: s) then [] else c :: Py.rstrip s.
Proof.
  unfold Py.rstrip. rewrite reverse_cons, lstrip_snoc, blank_reverse.
  change (blank (c :: s)) with (Py.isspace c && blank s).
  destruct (blank s) eqn:Hs.
  - rewrite (lstrip_blank (reverse s)) by by rewrite blank_reverse.
    by destruct (Py.isspace c).
  - rewrite andb_false_r. by rewrite reverse_snoc.
Qed.

Lemma split_from_blank s : blank s = true → Py.split_from [] s = [].
Proof.
  induction s as [|c s IH]; [done|]. simpl.
  intros [-> Hs]%andb_true_iff. by apply IH.
Qed.

Lemma split_from_not_blank s : blank s = false → Py.split_from [] s ≠ [].
Proof.
  induction s as [|c s IH]; [done|]. simpl.
  destruct (Py.isspace c); simpl; [done|].
  intros _. by apply split_from_nonempty.
Qed.

(** Joining the words of [s] is collapsing the whitespace runs of [s]
    trimmed on the right; [w] is the word being read. *)
Lemma join_split_sub_ws s :
  (∀ w, w ≠ [] →
        Py.join " " (Py.split_from w s) = w ++ Py.sub_ws false (Py.rstrip s))
  ∧ Py.join " " (Py.split_from [] s) = Py.sub_ws true (Py.rstrip s).
Proof.
  induction s as [|c s [IHw IHe]]; [split; [intros [] ?|]; by rewrite ?app_nil_r|].
  rewrite rstrip_cons. change (blank (c :: s)) with (Py.isspace c && blank s).
  cbn [Py.split_from]. destruct (Py.isspace c) eqn:Hc; simpl; [|rewrite Hc].
  - destruct (blank s) eqn:Hs.
    + rewrite (split_from_blank s Hs). split; [|done].
      intros [|a w] Hw; [done|]. simpl. by rewrite app_nil_r.
    + simpl. rewrite Hc. split; [|done].
      intros [|a w] Hw; [done|].
      pose proof (split_from_not_blank s Hs) as Hne.
      destruct (Py.split_from [] s) as [|y l]; [done|].
      by rewrite join_cons_cons, IHe.
  - split.
    + intros w Hw. rewrite IHw by by destruct w. by rewrite <- app_assoc.
    + by rewrite (IHw [c]).
Qed.

Lemma sub_ws_lstrip s : Py.sub_ws true (Py.rstrip s) = Py.sub_ws false (Py.strip s).
Proof.
  unfold Py.strip. induction s as [|c s IH]; [done|].
  rewrite rstrip_cons. cbn [Py.lstrip].
  change (blank (c :: s)) with (Py.isspace c && blank s).
  destruct (Py.isspace c) eqn:Hc; simpl.
  - destruct (blank s) eqn:Hs; [|by simpl; rewrite Hc].
    by rewrite <- IH, (rstrip_blank s Hs).
  - rewrite rstrip_cons. change (blank (c :: s)) with (Py.isspace c && blank s).
    rewrite !Hc. simpl. by rewrite Hc.
Qed.

(** [" ".join(s.split())] is [re.sub(r"\s+", " ", s.strip())]. *)
Lemma join_split_collapse s :
  Py.join " " (Py.split s) = Py.sub_ws false (Py.strip s).
Proof.
  unfold Py.split. rewrite (proj2 (join_split_sub_ws s)). apply sub_ws_lstrip.
Qed.

End TrimFacts.

(** ** Normalized text *)

Section NormalizeFacts.

Implicit Types (c : ascii) (s t w : str) (l : list str).

Lemma isspace_lower_char c : Py.isspace (Py.lower_char c) = Py.isspace c.
Proof. by destruct c as [[] [] [] [] [] [] [] []]. Qed.

Lemma lower_char_twice c : Py.lower_char (Py.lower_char c) = Py.lower_char c.
Proof. by destruct c as [[] [] [] [] [] [] [] []]. Qed.

Lemma isspace_not_digit c : Py.isspace c = true → Py.isdigit_char c = false.
Proof. by destruct c as [[] [] [] [] [] [] [] []]. Qed.

Lemma lower_twice s : Py.lower (Py.lower s) = Py.lower s.
Proof.
  unfold Py.lower. induction s as [|c s IH]; simpl; [done|].
  by rewrite lower_char_twice, IH.
Qed.

Lemma lower_app s t : Py.lower (s ++ t) = Py.lower s ++ Py.lower t.
Proof. apply map_app. Qed.

Lemma lower_reverse s : Py.lower (reverse s) = reverse (Py.lower s).
Proof.
  induction s as [|c s IH]; [done|].
  change (Py.lower (c :: s)) with (Py.lower_char c :: Py.lower s).
  by rewrite !reverse_cons, lower_app, IH.
Qed.

Lemma lower_lstrip s : Py.lower (Py.lstrip s) = Py.lstrip (Py.lower s).
Proof.
  induction s as [|c s IH]; [done|]. simpl. rewrite isspace_lower_char.
  by destruct (Py.isspace c).
Qed.

Lemma lower_strip s : Py.lower (Py.strip s) = Py.strip (Py.lower s).
Proof.
  unfold Py.strip, Py.rstrip.
  by rewrite lower_reverse, lower_lstrip, lower_reverse, lower_lstrip.
Qed.

Lemma lower_sub_ws b s : Py.lower (Py.sub_ws b s) = Py.sub_ws b (Py.lower s).
Proof.
  revert b. induction s as [|c s IH]; intros b; [done|]. simpl.
  rewrite isspace_lower_char. destruct (Py.isspace c), b; simpl;
    by rewrite ?IH.
Qed.

Lemma normalize_text_words t :
  normalize_text t = Py.join " " (Py.split (Py.lower t)).
Proof.
  unfold normalize_text. by rewrite lower_strip, join_split_collapse.
Qed.

Lemma lower_normalize_text t : Py.lower (normalize_text t) = normalize_text t.
Proof. unfold normalize_text. by rewrite lower_sub_ws, lower_twice. Qed.

Lemma spaced_tail_word w s :
  (∀ c, c ∈ w → Py.isspace c = false) →
  spaced_tail (w ++ s) = spaced_tail s.
Proof.
  induction w as [|a w IH]; intros Hw; [done|]. simpl.
  rewrite (Hw a) by apply list_elem_of_here.
  apply IH. intros c Hc. by apply Hw, list_elem_of_further.
Qed.

Lemma single_spaced_join l :
  Forall word l → single_spaced (Py.join " " l) = true.
Proof.
  intros Hl. unfold single_spaced. apply andb_true_iff. split.
  - destruct (join_words_clean l Hl) as [Hstart _].
    destruct (Py.join " " l) as [|c s]; [done|].
    by rewrite (Hstart c).
  - induction Hl as [|x l [Hx Hsp] Hl IH]; [done|].
    destruct l as [|y l].
    + simpl. rewrite <- (app_nil_r x). by rewrite spaced_tail_word.
    + rewrite join_cons_cons, spaced_tail_word by done.
      destruct (join_words_clean (y :: l) Hl) as [Hstart _].
      apply Forall_cons in Hl as [[Hy _] _].
      pose proof (join_words_nonempty " " y l Hy) as Hne.
      destruct (Py.join " " (y :: l)) as [|c s] eqn:E; [done|].
      change (spaced_tail (" " ++ c :: s))
        with (negb (Py.isspace c) && spaced_tail (c :: s)).
      by rewrite (Hstart c), IH.
Qed.

Lemma single_spaced_normalize_text t : single_spaced (normalize_text t) = true.
Proof.
  rewrite normalize_text_words. apply single_spaced_join.
  apply split_from_words. intros c Hc. by apply elem_of_nil in Hc.
Qed.

Lemma normalize_text_fixed t : normalize_text (normalize_text t) = normalize_text t.
Proof.
  rewrite (normalize_text_words (normalize_text t)), lower_normalize_text.
  apply join_split_single_spaced, single_spaced_normalize_text.
Qed.

End NormalizeFacts.

(** X1. [normalize_text] gives the words of the text, in lower case,
    separated by single spaces: what [" ".join(text.lower().split())]
    gives. *)
Theorem normalize_text_is_words t :
  normalize_text t = Py.join " " (Py.split (Py.lower t))
  ∧ single_spaced (normalize_text t) = true.
Proof. split; [apply normalize_text_words | apply single_spaced_normalize_text]. Qed.

(** X2. Normalizing a normalized text changes nothing. *)
Theorem normalize_text_idempotent t :
  normalize_text (normalize_text t) = normalize_text t.
Proof. apply normalize_text_fixed. Qed.

(** ** More on the resolver *)

Section MoreResolverFacts.

Implicit Types (items : list item) (it : item) (query : str).

Lemma contains_nil s : Py.contains [] s = true.
Proof. by destruct s. Qed.

Lemma contains_refl s : Py.contains s s = true.
Proof. apply contains_spec. exists [], []. by rewrite app_nil_r. Qed.

Lemma substring_trans p q s : substring p q → substring q s → substring p s.
Proof.
  intros (a & b & ->) (a' & b' & ->). exists (a' ++ a), (b ++ b').
  by rewrite <- !app_assoc.
Qed.

Lemma normalize_text_blank query : blank query = true → normalize_text query = [].
Proof.
  intros Hq. unfold normalize_text, Py.strip. by rewrite (lstrip_blank _ Hq).
Qed.

Lemma blank_not_number query : blank query = true → is_number query = false.
Proof.
  destruct query as [|c s]; [done|]. simpl.
  intros [Hc _]%andb_true_iff. by rewrite (isspace_not_digit c Hc).
Qed.

Lemma blank_no_hyphen query :
  blank query = true → Py.contains "-" query = false.
Proof.
  intros Hq. apply contains_char_false. intros Hin.
  unfold blank in Hq. rewrite forallb_forall in Hq.
  by apply list_elem_of_In, Hq in Hin.
Qed.

Lemma filter_all {A} (f : A → bool) (l : list A) :
  (∀ x, f x = true) → List.filter f l = l.
Proof.
  intros Hf. induction l as [|x l IH]; simpl; [done|]. by rewrite Hf, IH.
Qed.

(** X3. An empty query, or one of whitespace only, matches every entry
    of the catalog: [resolve_slug] answers with the slug of the only
    entry, with all the entries when there are several, and with "not
    found" on an empty catalog only. *)
Theorem blank_query_matches_all items query :
  blank query = true →
  find_matches items query = items
  ∧ resolve_slug query items =
      match items with
      | [] => (None, None)
      | [it] => (Some (titleSlug it), None)
      | _ => (None, Some items)
      end.
Proof.
  intros Hq.
  assert (find_matches items query = items) as Hall.
  { unfold find_matches. rewrite (normalize_text_blank _ Hq).
    apply filter_all. intros it. by rewrite contains_nil. }
  split; [done|]. unfold resolve_slug.
  by rewrite (blank_not_number _ Hq), (blank_no_hyphen _ Hq), Hall.
Qed.

(** X4. A query that is, up to letter case and spacing, the title or the
    slug of a catalog entry matches that entry. *)
Theorem find_matches_finds_own_name items it query :
  it ∈ items →
  normalize_text query = normalize_text (title it)
  ∨ normalize_text query = normalize_text (titleSlug it) →
  it ∈ find_matches items query.
Proof.
  intros Hin Hname. apply find_matches_spec. split; [done|].
  unfold fuzzy_match. rewrite <- !contains_spec.
  destruct Hname as [-> | ->]; [left | right]; apply contains_refl.
Qed.

(** X5. Making the query more specific never adds matches: when the
    normalized query occurs in another normalized query, every entry
    the second matches is matched by the first. *)
Theorem find_matches_narrows items query query' it :
  substring (normalize_text query) (normalize_text query') →
  it ∈ find_matches items query' →
  it ∈ find_matches items query.
Proof.
  intros Hsub [Hin Hmatch]%find_matches_spec. apply find_matches_spec.
  split; [done|].
  destruct Hmatch as [H | H]; [left | right]; by apply (substring_trans _ _ _ Hsub).
Qed.

Lemma find_by_id_found items query it :
  find_by_id items query = Some it →
  it ∈ items ∧ questionFrontendId it = query.
Proof.
  induction items as [|x items IH]; simpl; [done|].
  case_bool_decide as Hid.
  - intros [= ->]. split; [apply list_elem_of_here | done].
  - intros [Hin Heq]%IH. split; [by apply list_elem_of_further | done].
Qed.

(** X6. The three answers of [resolve_slug] exclude one another. A list
    of candidates comes without a slug, holds at least two entries and
    only entries of the catalog that match the query; a slug is that of
    a catalog entry, with the frontend id asked for or matching the
    query, unless the query was taken for a slug itself. *)
Theorem resolve_slug_answers items query slug candidates :
  resolve_slug query items = (slug, candidates) →
  (∀ l, candidates = Some l →
        slug = None ∧ 2 ≤ length l
        ∧ ∀ it, it ∈ l → it ∈ items ∧ fuzzy_match query it)
  ∧ (∀ s, slug = Some s →
          candidates = None
          ∧ ((∃ it, it ∈ items ∧ titleSlug it = s
                    ∧ (questionFrontendId it = query ∨ fuzzy_match query it))
             ∨ (s = Py.strip query ∧ "-"%char ∈ query))).
Proof.
  unfold resolve_slug. destruct (is_number query).
  { destruct (find_by_id items query) as [it|] eqn:Hfind;
      intros [= <- <-]; split; try done.
    intros s [= <-]. split; [done|]. left. exists it.
    apply find_by_id_found in Hfind as [Hin Hid]. auto. }
  destruct (Py.contains "-" query && negb (Py.contains " " query)) eqn:Hrule.
  { intros [= <- <-]. split; [done|]. intros s [= <-]. split; [done|].
    right. split; [done|]. apply andb_true_iff in Hrule as [Hh _].
    by apply contains_char. }
  pose proof (find_matches_spec items query) as Hspec.
  destruct (find_matches items query) as [|it [|it' l]];
    intros [= <- <-]; split; try done.
  - intros s [= <-]. split; [done|]. left. exists it.
    destruct (proj1 (Hspec it)) as [Hin Hm]; [apply list_elem_of_here|]. auto.
  - intros ? [= <-]. split; [done|]. split; [simpl; lia|].
    intros x Hx. by apply Hspec.
Qed.

End MoreResolverFacts.

(** ** More on the markup converter *)

Section MoreMarkupFacts.

Implicit Types (c : ascii) (s t w : str) (l : list str) (self : HtmlToText).

Lemma starts_clean_lstrip s : starts_clean (Py.lstrip s).
Proof.
  induction s as [|c s IH]; [done|]. simpl.
  destruct (Py.isspace c) eqn:Hc; [done|]. by intros ? [= <-].
Qed.

Lemma starts_clean_rstrip s : starts_clean s → starts_clean (Py.rstrip s).
Proof.
  destruct s as [|c s]; [done|]. intros Hs. rewrite rstrip_cons.
  destruct (blank (c :: s)); [done|]. intros ? [= <-]. by apply Hs.
Qed.

Lemma ends_clean_rstrip s : ends_clean (Py.rstrip s).
Proof.
  unfold Py.rstrip. intros c. rewrite last_reverse. apply starts_clean_lstrip.
Qed.

Lemma strip_is_clean s : starts_clean (Py.strip s) ∧ ends_clean (Py.strip s).
Proof.
  split; [apply starts_clean_rstrip, starts_clean_lstrip | apply ends_clean_rstrip].
Qed.

(** X7. The text [html_to_text] returns neither starts nor ends with a
    whitespace character. *)
Theorem html_to_text_is_trimmed h t :
  html_to_text h = Some t → starts_clean t ∧ ends_clean t.
Proof.
  unfold html_to_text. destruct (feed h HtmlToText_init) as [self|]; [|done].
  intros [= <-]. apply strip_is_clean.
Qed.

Lemma rstrip_snoc_space s c : Py.isspace c = true → Py.rstrip (s ++ [c]) = Py.rstrip s.
Proof. intros Hc. unfold Py.rstrip. rewrite reverse_snoc. simpl. by rewrite Hc. Qed.

Lemma strip_snoc_space s c : Py.isspace c = true → Py.strip (s ++ [c]) = Py.strip s.
Proof.
  intros Hc. unfold Py.strip. rewrite lstrip_snoc, Hc.
  destruct (blank s) eqn:Hs.
  - by rewrite (lstrip_blank s Hs).
  - by apply rstrip_snoc_space.
Qed.

Lemma scan_plain_then text t rest :
  plain_text t → scan (InText text) (t ++ rest) = scan (InText (text ++ t)) rest.
Proof.
  intros Hplain. revert text.
  induction Hplain as [|c t [Hlt Hamp] _ IH]; intros text; simpl.
  - by rewrite app_nil_r.
  - destruct (ascii_dec c "<"); [done|]. destruct (ascii_dec c "&"); [done|].
    by rewrite IH, <- app_assoc.
Qed.

Lemma fold_data_event text self :
  fold_left dispatch (data_event text) self = handle_data text self.
Proof. by destruct text. Qed.

Lemma scan_open_tag text tag rest :
  tag = "p" ∨ tag = "pre" →
  scan (InText text) ("<" ++ tag ++ ">" ++ rest)
  = (λ events, data_event text ++ StartTag tag [] :: events)
      <$> scan (InText []) rest.
Proof.
  intros [-> | ->]; simpl; by destruct (scan (InText []) rest).
Qed.

Lemma scan_close_tag text tag rest :
  tag = "p" ∨ tag = "pre" →
  scan (InText text) ("</" ++ tag ++ ">" ++ rest)
  = (λ events, data_event text ++ EndTag tag :: events)
      <$> scan (InText []) rest.
Proof.
  intros [-> | ->]; simpl; by destruct (scan (InText []) rest).
Qed.

(** X8. The text of a preformatted block is kept as it is, whitespace
    and line breaks included; only the ends of the result are trimmed. *)
Theorem html_to_text_pre t :
  plain_text t →
  html_to_text ("<pre>" ++ t ++ "</pre>") = Some (Py.strip t).
Proof.
  intros Hplain. unfold html_to_text, feed.
  rewrite (scan_open_tag [] "pre" (t ++ "</pre>") (or_intror eq_refl)
           : scan (InText []) ("<pre>" ++ t ++ "</pre>") = _).
  rewrite (scan_plain_then [] t _ Hplain).
  rewrite (scan_close_tag ([] ++ t) "pre" [] (or_intror eq_refl)
           : scan (InText ([] ++ t)) "</pre>" = _). simpl. f_equal.
  rewrite fold_left_app, fold_data_event. simpl.
  destruct t as [|c t]; [done|]. set (s := c :: t).
  unfold handle_data, handle_endtag, _newline. simpl.
  unfold get_text.
  destruct (Py.ends_with_newline s); simpl; rewrite ?app_nil_r; [done|].
  by apply (strip_snoc_space s LF).
Qed.

Lemma join_split_no_newline s :
  Py.ends_with_newline (Py.join " " (Py.split s)) = false.
Proof.
  destruct (join_words_clean (Py.split s)) as [_ Hend].
  { apply split_from_words. intros c Hc. by apply elem_of_nil in Hc. }
  unfold Py.ends_with_newline.
  destruct (last (Py.join " " (Py.split s))) as [c|] eqn:E; [|done].
  destruct (ascii_dec c "010") as [->|]; [|done]. by apply Hend in E.
Qed.

(** X9. Two paragraphs with text come out on two lines, each with its
    whitespace runs collapsed to single spaces. *)
Theorem html_to_text_paragraphs a b :
  plain_text a → plain_text b →
  Py.split a ≠ [] → Py.split b ≠ [] →
  html_to_text ("<p>" ++ a ++ "</p><p>" ++ b ++ "</p>")
  = Some (Py.join " " (Py.split a) ++ [LF] ++ Py.join " " (Py.split b)).
Proof.
  intros Ha Hb Hwa Hwb. unfold html_to_text, feed.
  rewrite (scan_open_tag [] "p" (a ++ "</p><p>" ++ b ++ "</p>")
             (or_introl eq_refl)
           : scan (InText []) ("<p>" ++ a ++ "</p><p>" ++ b ++ "</p>") = _).
  rewrite (scan_plain_then [] a _ Ha).
  rewrite (scan_close_tag ([] ++ a) "p" ("<p>" ++ b ++ "</p>")
             (or_introl eq_refl)
           : scan (InText ([] ++ a)) ("</p><p>" ++ b ++ "</p>") = _).
  rewrite (scan_open_tag [] "p" (b ++ "</p>") (or_introl eq_refl)
           : scan (InText []) ("<p>" ++ b ++ "</p>") = _).
  rewrite (scan_plain_then [] b _ Hb).
  rewrite (scan_close_tag ([] ++ b) "p" [] (or_introl eq_refl)
           : scan (InText ([] ++ b)) "</p>" = _). simpl. f_equal.
  change (handle_starttag "p" [] HtmlToText_init) with HtmlToText_init.
  assert (∀ s, Py.split s ≠ [] → Py.join " " (Py.split s) ≠ []) as Hne.
  { intros s Hs. pose proof (split_from_words [] s) as Hw.
    destruct (Py.split s) as [|x l] eqn:E; [done|].
    unfold Py.split in E. rewrite E in Hw.
    apply join_words_nonempty.
    apply (Forall_inv (Hw ltac:(by intros ? ?%elem_of_nil))). }
  pose proof (Hne a Hwa) as HA. pose proof (Hne b Hwb) as HB.
  pose proof (join_split_no_newline a) as HnA.
  pose proof (join_split_no_newline b) as HnB.
  destruct (join_words_clean (Py.split a)) as [HsA _].
  { apply split_from_words. by intros ? ?%elem_of_nil. }
  destruct (join_words_clean (Py.split b)) as [_ HeB].
  { apply split_from_words. by intros ? ?%elem_of_nil. }
  assert (∀ s self, Py.split s ≠ [] →
            _in_pre self = false → _pending_space self = false →
            handle_data s self
            = set_pending_space true (_append (Py.join " " (Py.split s)) self))
    as Hdata.
  { intros s self Hs Hpre Hpend. unfold handle_data.
    destruct s as [|c s]; [done|]. rewrite Hpre, Hpend.
    pose proof (Hne _ Hs). by destruct (Py.join " " (Py.split (c :: s))). }
  set (A := Py.join " " (Py.split a)) in *.
  set (B := Py.join " " (Py.split b)) in *.
  rewrite fold_left_app, fold_data_event, Hdata by done. fold A.
  cbn [fold_left dispatch]. unfold handle_endtag at 1. simpl.
  unfold _newline at 1. simpl. rewrite HnA.
  unfold handle_starttag, _newline at 1. simpl.
  rewrite fold_left_app, fold_data_event, Hdata by done. fold B.
  cbn [fold_left dispatch]. unfold handle_endtag, _newline. simpl.
  rewrite HnB. unfold get_text. simpl.
  change (A ++ "010"%char :: B ++ ["010"%char])
    with (A ++ [LF] ++ B ++ [LF]).
  rewrite !app_assoc, strip_snoc_space by done. rewrite <- !app_assoc.
  apply strip_clean.
  - intros c. destruct A as [|x A]; [done|]. apply HsA.
  - intros c Hc. apply HeB. rewrite !last_app, last_cons in Hc.
    destruct (last B) as [y|] eqn:E; [done|]. by apply last_None in E.
Qed.

End MoreMarkupFacts.

(** ** Line breaks in the converted text *)

Section LineBreakFacts.

Implicit Types (c : ascii) (s t x : str) (self : HtmlToText).

Lemma no_blank_line_cons c s :
  no_blank_line (c :: s) =
    match s with
    | b :: _ => negb ((if ascii_dec c LF then true else false)
                      && (if ascii_dec b LF then true else false))
    | [] => true
    end && no_blank_line s.
Proof. by destruct s. Qed.

Lemma no_blank_line_free x : LF ∉ x → no_blank_line x = true.
Proof.
  induction x as [|a x IH]; [done|]. intros Hx.
  rewrite no_blank_line_cons, IH by (intros ?; apply Hx; by apply list_elem_of_further).
  destruct x as [|b x]; [done|].
  destruct (ascii_dec a LF) as [->|]; [|done].
  destruct Hx. apply list_elem_of_here.
Qed.

Lemma no_blank_line_app_free s x :
  no_blank_line s = true → LF ∉ x → no_blank_line (s ++ x) = true.
Proof.
  intros Hs Hx. induction s as [|a s IH]; [by apply no_blank_line_free|].
  rewrite no_blank_line_cons in Hs. apply andb_true_iff in Hs as [Hpair Hs].
  change ((a :: s) ++ x) with (a :: (s ++ x)).
  rewrite no_blank_line_cons, (IH Hs), andb_true_r.
  destruct s as [|b s]; [|done]. simpl. destruct x as [|b x]; [done|].
  destruct (ascii_dec b LF) as [->|]; [|by rewrite andb_false_r].
  destruct Hx. apply list_elem_of_here.
Qed.

Lemma no_blank_line_snoc s :
  no_blank_line s = true → last s ≠ Some LF →
  no_blank_line (s ++ [LF]) = true.
Proof.
  induction s as [|a s IH]; [done|]. intros Hs Hlast.
  rewrite no_blank_line_cons in Hs. apply andb_true_iff in Hs as [Hpair Hs].
  change ((a :: s) ++ [LF]) with (a :: (s ++ [LF])).
  rewrite no_blank_line_cons. destruct s as [|b s].
  - simpl. destruct (ascii_dec a LF) as [->|]; [by destruct Hlast | done].
  - rewrite IH; [by rewrite andb_true_r | done | by rewrite last_cons_cons in Hlast].
Qed.

Lemma no_blank_line_lstrip s :
  no_blank_line s = true → no_blank_line (Py.lstrip s) = true.
Proof.
  induction s as [|c s IH]; [done|]. intros Hs. simpl.
  destruct (Py.isspace c); [|done]. apply IH.
  rewrite no_blank_line_cons in Hs. by apply andb_true_iff in Hs as [_ Hs].
Qed.

Lemma no_blank_line_rstrip s :
  no_blank_line s = true → no_blank_line (Py.rstrip s) = true.
Proof.
  induction s as [|c s IH]; [done|]. intros Hs.
  rewrite no_blank_line_cons in Hs. apply andb_true_iff in Hs as [Hpair Hs].
  rewrite rstrip_cons. destruct (blank (c :: s)); [done|].
  rewrite no_blank_line_cons, (IH Hs), andb_true_r.
  destruct s as [|b s]; [done|]. rewrite rstrip_cons.
  by destruct (blank (b :: s)).
Qed.

Lemma no_blank_line_spec s :
  no_blank_line s = true → ¬ substring [LF; LF] s.
Proof.
  induction s as [|c s IH]; intros Hs (a & b & Heq).
  - by destruct a.
  - rewrite no_blank_line_cons in Hs. apply andb_true_iff in Hs as [Hpair Hs].
    destruct a as [|c' a].
    + injection Heq as -> ->. simpl in Hpair.
      by destruct (ascii_dec LF LF).
    + injection Heq as -> ->. apply (IH Hs). by exists a, b.
Qed.

Lemma last_concat (chunks : list str) x :
  Forall (λ chunk, chunk ≠ []) chunks →
  last chunks = Some x → last (concat chunks) = last x.
Proof.
  intros Hne [chunks' ->]%last_Some.
  apply Forall_app in Hne as [_ Hx]. apply Forall_inv in Hx.
  rewrite concat_app. simpl. rewrite app_nil_r, last_app.
  destruct (last x) eqn:E; [done|]. by apply last_None in E.
Qed.

Lemma spaced_tail_space s c :
  spaced_tail s = true → c ∈ s → Py.isspace c = true → c = " "%char.
Proof.
  induction s as [|a s IH]; intros Hs Hc Hsp; [by apply elem_of_nil in Hc|].
  simpl in Hs. apply elem_of_cons in Hc as [-> | Hc].
  - rewrite Hsp in Hs.
    apply andb_true_iff in Hs as [[Hs _]%andb_true_iff _].
    by apply bool_decide_eq_true in Hs.
  - apply IH; [|done..]. destruct (Py.isspace a); [|done].
    by apply andb_true_iff in Hs as [_ Hs].
Qed.

Lemma join_split_no_line_break s : LF ∉ Py.join " " (Py.split s).
Proof.
  intros Hin.
  pose proof (single_spaced_join (Py.split s)) as Hsp.
  apply andb_true_iff in Hsp as [_ Htail];
    [|apply split_from_words; by intros ? ?%elem_of_nil].
  by pose proof (spaced_tail_space _ _ Htail Hin eq_refl).
Qed.

Lemma tidy_append x self :
  tidy_parser self → x ≠ [] → LF ∉ x → tidy_parser (_append x self).
Proof.
  intros (Hpre & Hne & Hnb) Hx Hfree. repeat split; [done| |].
  - simpl. apply Forall_app. split; [done|]. by constructor.
  - simpl. rewrite concat_app. simpl. rewrite app_nil_r.
    by apply no_blank_line_app_free.
Qed.

Lemma tidy_newline self : tidy_parser self → tidy_parser (_newline self).
Proof.
  intros (Hpre & Hne & Hnb). unfold _newline.
  destruct (last (_chunks self)) as [x|] eqn:Hlast; [|done].
  destruct (Py.ends_with_newline x) eqn:Hend; [done|].
  repeat split; [done| |].
  - simpl. apply Forall_app. split; [done|]. by constructor.
  - simpl. rewrite concat_app. simpl.
    apply (no_blank_line_snoc _ Hnb).
    rewrite (last_concat _ _ Hne Hlast). intros Hx.
    unfold Py.ends_with_newline in Hend. rewrite Hx in Hend.
    by destruct (ascii_dec LF "010").
Qed.

Lemma tidy_pending b self : tidy_parser self → tidy_parser (set_pending_space b self).
Proof. done. Qed.

Lemma tidy_leave_pre self : tidy_parser self → tidy_parser (set_in_pre false self).
Proof. by intros (_ & Hne & Hnb). Qed.

Lemma tidy_dispatch self e :
  tidy_parser self → not_pre_start e → tidy_parser (dispatch self e).
Proof.
  intros Htidy He. pose proof Htidy as (Hpre & _ & _).
  destruct e as [tag attrs|tag|data]; simpl.
  - unfold handle_starttag. rewrite Hpre. simpl in He.
    rewrite (bool_decide_eq_false_2 _ He).
    repeat case_match; try done; try by apply tidy_newline.
    + apply tidy_append; [done..|]. by intros [=]%list_elem_of_singleton.
    + apply tidy_append; [by apply tidy_newline|done|].
      intros [[=]|[=]%list_elem_of_singleton]%elem_of_cons.
  - unfold handle_endtag. rewrite Hpre.
    repeat case_match; try done; try by apply tidy_newline.
    + by apply tidy_leave_pre, tidy_newline.
    + apply tidy_append; [done..|]. by intros [=]%list_elem_of_singleton.
  - unfold handle_data. destruct data as [|c data]; [done|]. rewrite Hpre.
    pose proof (join_split_no_line_break (c :: data)) as Hfree.
    destruct (Py.join " " (Py.split (c :: data))) as [|a text] eqn:E; [done|].
    apply tidy_pending, tidy_append; [|done..].
    destruct (_pending_space self); [|done].
    apply tidy_pending, tidy_append; [done..|].
    by intros [=]%list_elem_of_singleton.
Qed.

Lemma tidy_fold events self :
  tidy_parser self → Forall not_pre_start events →
  tidy_parser (fold_left dispatch events self).
Proof.
  intros Htidy Hevents. revert self Htidy.
  induction Hevents as [|e events He _ IH]; intros self Htidy; [done|].
  simpl. by apply IH, tidy_dispatch.
Qed.

(** X10. Without a preformatted block in the fragment, the converted
    text never holds two line breaks in a row: it has no empty line. *)
Theorem html_to_text_no_empty_line h events t :
  scan (InText []) h = Some events →
  Forall not_pre_start events →
  html_to_text h = Some t →
  ¬ substring [LF; LF] t.
Proof.
  intros Hscan Hevents. unfold html_to_text, feed. rewrite Hscan. simpl.
  intros [= <-]. apply no_blank_line_spec.
  destruct (tidy_fold events HtmlToText_init) as (_ & _ & Hnb); [done..|].
  unfold get_text, Py.strip. by apply no_blank_line_rstrip, no_blank_line_lstrip.
Qed.

(** X11. A fragment of whitespace only, or an empty one, converts to the
    empty text. *)
Theorem html_to_text_blank t :
  blank t = true → html_to_text t = Some [].
Proof.
  intros Ht. rewrite html_to_text_plain.
  - unfold Py.split. by rewrite (split_from_blank t Ht).
  - unfold blank in Ht. rewrite forallb_forall in Ht.
    apply Forall_forall. intros c Hc%list_elem_of_In%Ht.
    split; intros ->; done.
Qed.

End LineBreakFacts.

(** ** More on the cache *)

Section MoreCacheFacts.

Implicit Types (w : world) (name : str) (ttl : Z) (data : json).


Lemma load_cache_ends name ttl w :
  (∃ v, load_cache name ttl w = Ret v (make_dir w))
  ∨ load_cache name ttl w = Raise AttributeError (make_dir w).
Proof.
  rewrite load_cache_run.
  destruct (files w !! name) as [[|payload]|]; eauto.
  destruct payload; simpl; eauto.
  destruct (Dyn.number _); eauto. destruct (Qle_bool _ _); eauto.
Qed.



End MoreCacheFacts.

(** ** More on the problem source *)

Section ClockFacts.

Variable py_str : json -> str.

Lemma clock_ret {A} (a : A) : keeps_clock (mret a).
Proof. by intros w. Qed.

Lemma clock_raise {A} e : keeps_clock (@raise A e).
Proof. by intros w. Qed.

Lemma clock_lift {A} (r : exn + A) : keeps_clock (lift r).
Proof. destruct r; [apply clock_raise | apply clock_ret]. Qed.

Lemma clock_bind {A B} (m : M A) (k : A → M B) :
  keeps_clock m → (∀ a, keeps_clock (k a)) → keeps_clock (m ≫= k).
Proof.
  intros Hm Hk w. unfold mbind, M_bind. specialize (Hm w).
  destruct (m w) as [a w1|e w1|]; try done.
  specialize (Hk a w1). destruct (k a w1); congruence.
Qed.

Lemma clock_urlopen req : keeps_clock (urlopen req).
Proof. intros w. unfold urlopen. by destruct (server w _). Qed.

Lemma clock_json_loads d : keeps_clock (json_loads d).
Proof. destruct d; [apply clock_raise | apply clock_ret]. Qed.

Lemma clock_post_graphql query variables :
  keeps_clock (post_graphql query variables).
Proof.
  intros w. rewrite post_graphql_run. cbv zeta. by repeat inner_case.
Qed.

#[local] Hint Resolve clock_ret clock_raise clock_lift clock_urlopen
  clock_json_loads clock_post_graphql : keeps.

#[local] Ltac clock :=
  repeat first
    [ progress auto with keeps
    | apply clock_bind; [|intros ?]
    | match goal with |- keeps_clock (if ?b then _ else _) => destruct b end ].

Lemma clock_page_loop fuel all_items skip limit :
  keeps_clock (page_loop fuel all_items skip limit).
Proof.
  revert all_items skip. induction fuel as [|fuel IH]; intros all_items skip.
  - by intros w.
  - cbn [page_loop]. clock.
Qed.

Lemma clock_rest_items entries : keeps_clock (rest_items py_str entries).
Proof.
  induction entries as [|entry entries IH]; cbn [rest_items]; clock.
Qed.

Lemma clock_fetch_problem_list_rest :
  keeps_clock (fetch_problem_list_rest py_str).
Proof. unfold fetch_problem_list_rest. clock. apply clock_rest_items. Qed.

End ClockFacts.

Section MoreSourceFacts.

Variable py_str : json -> str.

Implicit Types (w : world) (fuel : nat) (e : exn) (data : json).

Lemma contains_raises key v e : Dyn.contains key v = inl e → e = TypeError.
Proof. destruct v; simpl; congruence. Qed.

Lemma getitem_raises v key e :
  Dyn.getitem v key = inl e → e = TypeError ∨ e = KeyError key.
Proof.
  destruct v; simpl; try (intros [= <-]; by left).
  destruct (Dyn.lookup key fields); intros [= <-]. by right.
Qed.

(** X15. [post_graphql] ends, sends exactly one request, and never
    raises [HTTPError]: what it returns or raises comes with the world
    in which that one request has been recorded. *)
Theorem post_graphql_one_request query variables w :
  ∃ w', w' = log_request (POST GRAPHQL_URL query variables) w
        ∧ ((∃ d, post_graphql query variables w = Ret d w')
           ∨ ∃ e, post_graphql query variables w = Raise e w'
                  ∧ ∀ code body, e ≠ HTTPError code body).
Proof.
  eexists. split; [done|]. rewrite post_graphql_run. cbv zeta.
  destruct (server w (length (requests w))) as [|code body|[|reply]];
    try (right; eexists; split; [done|]; by intros ? ?).
  destruct (Dyn.contains "errors" reply) as [e|[|]] eqn:Hin.
  - right. exists e. split; [done|]. by rewrite (contains_raises _ _ _ Hin).
  - destruct (Dyn.getitem reply "errors") as [e|errors] eqn:Hget;
      right; eexists; (split; [done|]); [|done].
    by destruct (getitem_raises _ _ _ Hget) as [-> | ->].
  - destruct (Dyn.getitem reply "data") as [e|d] eqn:Hget; [|eauto].
    right. exists e. split; [done|].
    by destruct (getitem_raises _ _ _ Hget) as [-> | ->].
Qed.

Lemma via_rest_run w :
  via_rest py_str w =
    match fetch_problem_list_rest py_str w with
    | Ret items w' =>
        Ret (JList items)
          (put_file "problem_list.json" (cache_record (clock w') (JList items))
             (make_dir w'))
    | Raise e w' => Raise e w'
    | Diverge => Diverge
    end.
Proof.
  unfold via_rest, mbind at 1, M_bind at 1.
  by destruct (fetch_problem_list_rest py_str w).
Qed.

(** X16. After a miss of the cache, a catalog the paginated path
    returns is written to the cache, stamped with the time of the
    write, and returned. When that path raises [RuntimeError], the
    result is the one of the alternate source: its catalog, written to
    the cache, or its exception, which is the one the caller sees,
    with the cache as it was. *)
Theorem fetch_problem_list_after_miss fuel w cached w1 :
  load_cache "problem_list.json" LIST_TTL_SECONDS w = Ret cached w1 →
  Dyn.truthy cached = false →
  (∀ items w2,
     page_loop fuel [] 0 100 w1 = Ret items w2 →
     fetch_problem_list py_str fuel w
     = Ret (JList items)
         (put_file "problem_list.json"
            (cache_record (clock w2) (JList items)) (make_dir w2)))
  ∧ (∀ arg w2 items w3,
       page_loop fuel [] 0 100 w1 = Raise (RuntimeError arg) w2 →
       fetch_problem_list_rest py_str w2 = Ret items w3 →
       fetch_problem_list py_str fuel w
       = Ret (JList items)
           (put_file "problem_list.json"
              (cache_record (clock w3) (JList items)) (make_dir w3)))
  ∧ (∀ arg w2 e w3,
       page_loop fuel [] 0 100 w1 = Raise (RuntimeError arg) w2 →
       fetch_problem_list_rest py_str w2 = Raise e w3 →
       fetch_problem_list py_str fuel w = Raise e w3
       ∧ files w3 = files w).
Proof.
  intros Hload Hmiss.
  rewrite (fetch_problem_list_miss py_str fuel w cached w1 Hload Hmiss).
  split; [|split].
  - by intros items w2 ->.
  - intros arg w2 items w3 -> Hrest. simpl. by rewrite via_rest_run, Hrest.
  - intros arg w2 e w3 Hloop Hrest. split.
    { rewrite Hloop. simpl. by rewrite via_rest_run, Hrest. }
    pose proof (keeps_load_cache "problem_list.json" LIST_TTL_SECONDS w) as H1.
    pose proof (keeps_page_loop fuel [] 0 100 w1) as H2.
    pose proof (keeps_fetch_problem_list_rest py_str w2) as H3.
    rewrite Hload in H1. rewrite Hloop in H2. rewrite Hrest in H3. congruence.
Qed.

End MoreSourceFacts.

Section FetchAgainFacts.

Variable py_str : json -> str.

Implicit Types (w : world) (fuel : nat) (e : exn) (data : json).

Lemma load_cache_world name ttl w v w1 :
  load_cache name ttl w = Ret v w1 → w1 = make_dir w.
Proof.
  destruct (load_cache_ends name ttl w) as [[v' H] | H];
    rewrite H; congruence.
Qed.

Lemma fetch_problem_list_hit fuel w data :
  fresh_record w "problem_list.json" LIST_TTL_SECONDS data →
  Dyn.truthy data = true →
  fetch_problem_list py_str fuel w = Ret data (make_dir w).
Proof.
  intros Hfresh%load_cache_fresh Htruthy. unfold fetch_problem_list.
  unfold mbind at 1, M_bind at 1. by rewrite Hfresh, Htruthy.
Qed.

Lemma fetch_question_hit slug w data :
  fresh_record w (question_file slug) QUESTION_TTL_SECONDS data →
  Dyn.truthy data = true →
  fetch_question slug w = Ret data (make_dir w).
Proof.
  intros Hfresh%load_cache_fresh Htruthy. unfold fetch_question.
  unfold mbind at 1, M_bind at 1. unfold question_file in Hfresh.
  by rewrite Hfresh, Htruthy.
Qed.

Lemma fresh_after_save name ttl data w t :
  (t - inject_Z (Dyn.int_of_float (clock w)) <= inject_Z ttl)%Q →
  fresh_record (at_time t (put_file name (cache_record (clock w) data) (make_dir w)))
    name ttl data.
Proof.
  intros Hage. eexists _, _, _. split; [apply lookup_insert_eq|]. done.
Qed.

(** X17. A catalog that [fetch_problem_list] has fetched after a miss
    and that is not empty is returned again by a later call, without a
    request, as long as that call comes at most 24 hours after the
    stamp of the record (the time of the first call cut down to whole
    seconds). *)
Theorem fetch_problem_list_again fuel fuel' w cached w1 v w' t :
  load_cache "problem_list.json" LIST_TTL_SECONDS w = Ret cached w1 →
  Dyn.truthy cached = false →
  fetch_problem_list py_str fuel w = Ret v w' →
  Dyn.truthy v = true →
  (t - inject_Z (Dyn.int_of_float (clock w)) <= inject_Z LIST_TTL_SECONDS)%Q →
  fetch_problem_list py_str fuel' (at_time t w')
  = Ret v (make_dir (at_time t w'))
  ∧ requests (make_dir (at_time t w')) = requests w'.
Proof.
  intros Hload Hmiss Hfetch Htruthy Hage. split; [|done].
  rewrite (fetch_problem_list_miss py_str fuel w cached w1 Hload Hmiss)
    in Hfetch.
  apply load_cache_world in Hload as ->.
  pose proof (clock_page_loop fuel [] 0 100 (make_dir w)) as Hclock.
  destruct (page_loop fuel [] 0 100 (make_dir w)) as [items w2|e w2|];
    [| |done].
  - injection Hfetch as <- <-. apply fetch_problem_list_hit; [|done].
    apply fresh_after_save. by rewrite Hclock.
  - destruct (is_RuntimeError e); [|done]. rewrite via_rest_run in Hfetch.
    pose proof (clock_fetch_problem_list_rest py_str w2) as Hclock'.
    destruct (fetch_problem_list_rest py_str w2) as [items w3|e' w3|];
      [|done..].
    injection Hfetch as <- <-. apply fetch_problem_list_hit; [|done].
    apply fresh_after_save. by rewrite Hclock', Hclock.
Qed.

(** [fetch_question] after a miss of the cache. *)
Lemma fetch_question_miss slug w cached w1 :
  load_cache (question_file slug) QUESTION_TTL_SECONDS w = Ret cached w1 →
  Dyn.truthy cached = false →
  fetch_question slug w =
    match post_graphql DETAIL_QUERY (JObject [("titleSlug", JStr slug)]) w1 with
    | Ret data w2 =>
        match Dyn.getitem data "question" with
        | inl e => Raise e w2
        | inr question =>
            Ret question
              (put_file (question_file slug)
                 (cache_record (clock w2) question) (make_dir w2))
        end
    | Raise e w2 => Raise e w2
    | Diverge => Diverge
    end.
Proof.
  intros Hload Hmiss. unfold fetch_question.
  unfold mbind at 1, M_bind at 1. unfold question_file in Hload.
  rewrite Hload, Hmiss. unfold mbind at 1, M_bind at 1.
  destruct (post_graphql _ _ w1) as [data w2|e w2|]; try done.
  unfold mbind at 1, M_bind at 1, lift.
  by destruct (Dyn.getitem data "question").
Qed.

(** X18. A detail that [fetch_question] has fetched after a miss and
    that is truthy is returned again by a later call for the same slug,
    without a request, as long as that call comes at most seven days
    after the stamp of the record. *)
Theorem fetch_question_again slug w cached w1 v w' t :
  load_cache (question_file slug) QUESTION_TTL_SECONDS w = Ret cached w1 →
  Dyn.truthy cached = false →
  fetch_question slug w = Ret v w' →
  Dyn.truthy v = true →
  (t - inject_Z (Dyn.int_of_float (clock w)) <= inject_Z QUESTION_TTL_SECONDS)%Q →
  fetch_question slug (at_time t w') = Ret v (make_dir (at_time t w'))
  ∧ requests (make_dir (at_time t w')) = requests w'.
Proof.
  intros Hload Hmiss Hfetch Htruthy Hage. split; [|done].
  rewrite (fetch_question_miss slug w cached w1 Hload Hmiss) in Hfetch.
  apply load_cache_world in Hload as ->.
  pose proof (clock_post_graphql DETAIL_QUERY
                (JObject [("titleSlug", JStr slug)]) (make_dir w)) as Hclock.
  destruct (post_graphql _ _ (make_dir w)) as [data w2|e w2|]; [|done..].
  destruct (Dyn.getitem data "question") as [e|question]; [done|].
  injection Hfetch as <- <-. apply fetch_question_hit; [|done].
  apply fresh_after_save. by rewrite Hclock.
Qed.


End FetchAgainFacts.

Section PagingFacts.

Variable py_str : json -> str.

Implicit Types (w : world) (fuel : nat) (e : exn) (data : json).

Lemma post_graphql_world query variables w :
  match post_graphql query variables w with
  | Ret _ w' | Raise _ w' => w' = log_request (POST GRAPHQL_URL query variables) w
  | Diverge => False
  end.
Proof. rewrite post_graphql_run. cbv zeta. by repeat inner_case. Qed.

Lemma page_outcome_grows data all_items all_items' stop :
  page_outcome data all_items = inr (all_items', stop) →
  ∃ added, all_items' = all_items ++ added.
Proof.
  unfold page_outcome. repeat inner_case; try done. intros [= <- _]. eauto.
Qed.

(** X20. The requests of the pagination loop are page requests and
    nothing else, at least one, in order: the first skips [skip]
    entries and each next one [limit] more. What the loop returns
    starts with the entries it was given. *)
Theorem page_loop_requests fuel all_items skip limit w :
  match page_loop fuel all_items skip limit w with
  | Ret items w' =>
      ∃ n added,
        requests w' = requests w ++ page_requests skip limit (S n)
        ∧ items = all_items ++ added
  | Raise e w' =>
      ∃ n, requests w' = requests w ++ page_requests skip limit (S n)
  | Diverge => True
  end.
Proof.
  revert all_items skip w. induction fuel as [|fuel IH];
    intros all_items skip w; [done|].
  rewrite page_loop_step.
  pose proof (post_graphql_world LIST_QUERY (list_variables skip limit) w)
    as Hworld.
  destruct (post_graphql _ _ w) as [data w1|e w1|]; [| |done]; subst w1.
  - destruct (page_outcome data all_items) as [e|[all_items' [|]]] eqn:Hout.
    + by exists 0%nat.
    + apply page_outcome_grows in Hout as [added ->]. by exists 0%nat, added.
    + apply page_outcome_grows in Hout as [added ->].
      specialize (IH (all_items ++ added) (skip + limit)%Z
                    (log_request
                       (POST GRAPHQL_URL LIST_QUERY (list_variables skip limit))
                       w)).
      destruct (page_loop fuel _ _ _ _) as [items w'|e w'|]; [| |done].
      * destruct IH as (n & more & -> & ->). exists (S n), (added ++ more).
        simpl. by rewrite <- !app_assoc.
      * destruct IH as (n & ->). exists (S n). simpl. by rewrite <- !app_assoc.
  - by exists 0%nat.
Qed.

Lemma rest_item_pure entry :
  ∃ r : exn + json, ∀ w, rest_item py_str entry w = lift r w.
Proof.
  unfold rest_item, mbind, M_bind, lift.
  destruct (Dyn.get entry "stat" (JObject [])) as [e|stat];
    [by exists (inl e)|]. simpl.
  destruct (Dyn.get entry "difficulty" (JObject [])) as [e|difficulty];
    [by exists (inl e)|]. simpl.
  destruct (Dyn.get difficulty "level" JNull) as [e|level];
    [by exists (inl e)|]. simpl.
  destruct (Dyn.get stat "question_id" (JStr "")) as [e|a1];
    [by exists (inl e)|]. simpl.
  destruct (Dyn.get stat "frontend_question_id" (JStr "")) as [e|a2];
    [by exists (inl e)|]. simpl.
  destruct (Dyn.get stat "question__title" (JStr "")) as [e|a3];
    [by exists (inl e)|]. simpl.
  destruct (Dyn.get stat "question__title_slug" (JStr "")) as [e|a4];
    [by exists (inl e)|]. simpl.
  destruct (Dyn.get entry "paid_only" (JBool false)) as [e|a5];
    [by exists (inl e)|]. simpl.
  by eexists (inr _).
Qed.

(** X21. The alternate source turns its entries into catalog entries
    one by one, in order, without touching the world: the result holds
    as many entries as the snapshot, and the first entry that cannot be
    turned makes the whole list fail with its exception. *)
Theorem rest_items_pointwise entries w :
  match rest_items py_str entries w with
  | Ret items w' =>
      w' = w
      ∧ Forall2 (λ entry item, rest_item py_str entry w = Ret item w)
          entries items
  | Raise e w' =>
      w' = w
      ∧ ∃ before entry after,
          entries = before ++ entry :: after
          ∧ rest_item py_str entry w = Raise e w
          ∧ Forall (λ x, ∃ item, rest_item py_str x w = Ret item w) before
  | Diverge => False
  end.
Proof.
  induction entries as [|entry entries IH]; [by split|].
  cbn [rest_items]. unfold mbind at 1, M_bind at 1.
  destruct (rest_item_pure entry) as [[e|item] Hitem].
  - rewrite Hitem. simpl. split; [done|]. exists [], entry, entries.
    by rewrite Hitem.
  - rewrite Hitem. simpl. unfold mbind at 1, M_bind at 1.
    destruct (rest_items py_str entries w) as [items w'|e w'|]; [| |done].
    + destruct IH as [-> IH]. split; [done|]. constructor; [|done].
      by rewrite Hitem.
    + destruct IH as (-> & before & bad & after & -> & Hbad & Hbefore).
      split; [done|]. exists (entry :: before), bad, after.
      split; [done|]. split; [done|]. constructor; [|done].
      exists item. by rewrite Hitem.
Qed.

(** X22. An entry of the alternate source that can be turned gives a
    dictionary with the six keys of the catalog, in their order. Its
    difficulty is [Easy], [Medium] or [Hard] for a level equal to 1, 2
    or 3 and [Unknown] for any other level, a level that is not a
    number and a missing one. *)
Theorem rest_item_shape entry w item w' :
  rest_item py_str entry w = Ret item w' →
  w' = w
  ∧ keys_of item = catalog_keys
  ∧ ∃ difficulty level,
      Dyn.get entry "difficulty" (JObject []) = inr difficulty
      ∧ Dyn.get difficulty "level" JNull = inr level
      ∧ Dyn.getitem item "difficulty" = inr (JStr (level_label level))
      ∧ level_label level ∈ ["Easy"; "Medium"; "Hard"; "Unknown"]
      ∧ (Dyn.number level = None → level_label level = "Unknown").
Proof.
  unfold rest_item, mbind, M_bind, lift.
  destruct (Dyn.get entry "stat" (JObject [])) as [|stat]; [done|]. simpl.
  destruct (Dyn.get entry "difficulty" (JObject [])) as [|difficulty]
    eqn:Hdifficulty; [done|]. simpl.
  destruct (Dyn.get difficulty "level" JNull) as [|level] eqn:Hlevel;
    [done|]. simpl.
  destruct (Dyn.get stat "question_id" (JStr "")); [done|]. simpl.
  destruct (Dyn.get stat "frontend_question_id" (JStr "")); [done|]. simpl.
  destruct (Dyn.get stat "question__title" (JStr "")); [done|]. simpl.
  destruct (Dyn.get stat "question__title_slug" (JStr "")); [done|]. simpl.
  destruct (Dyn.get entry "paid_only" (JBool false)); [done|]. simpl.
  intros [= <- <-]. split; [done|]. split; [done|].
  exists difficulty, level. fold (level_label level).
  split; [done|]. split; [done|]. split; [done|]. split.
  - unfold level_label. repeat case_match; set_solver.
  - intros Hnum. unfold level_label, Dyn.eq_int. by rewrite Hnum.
Qed.

(** X23. The alternate source sends one [GET] request and fails like
    this: without a connection with [URLError]; on a status outside 2xx
    with [HTTPError], which is not wrapped as [post_graphql] wraps it;
    on a body that does not decode with [JSONDecodeError]; on a body
    that is not an object with [AttributeError]. An object without
    [stat_status_pairs] gives the empty catalog. *)
Theorem fetch_problem_list_rest_replies w :
  let w' := log_request (GET PROBLEM_LIST_URL) w in
  match server w (length (requests w)) with
  | Unreachable => fetch_problem_list_rest py_str w = Raise URLError w'
  | Status code body =>
      fetch_problem_list_rest py_str w = Raise (HTTPError code body) w'
  | Body Garbled => fetch_problem_list_rest py_str w = Raise JSONDecodeError w'
  | Body (Parsed (JObject fields)) =>
      match Dyn.lookup "stat_status_pairs" fields with
      | None => fetch_problem_list_rest py_str w = Ret [] w'
      | Some (JList entries) =>
          fetch_problem_list_rest py_str w = rest_items py_str entries w'
      | Some _ => True
      end
  | Body (Parsed _) =>
      fetch_problem_list_rest py_str w = Raise AttributeError w'
  end.
Proof.
  intros w'.
  assert (fetch_problem_list_rest py_str w
          = match server w (length (requests w)) with
            | Unreachable => Raise URLError w'
            | Status code body => Raise (HTTPError code body) w'
            | Body content =>
                (payload ← json_loads content;
                 pairs ← lift (Dyn.get payload "stat_status_pairs" (JList []));
                 entries ← lift (Dyn.iter pairs);
                 rest_items py_str entries) w'
            end) as ->.
  { unfold fetch_problem_list_rest, mbind at 1, M_bind at 1, urlopen.
    by destruct (server w (length (requests w))). }
  destruct (server w (length (requests w))) as [|code body|[|[]]];
    try done.
  unfold mbind, M_bind, mret, M_ret, lift. simpl.
  destruct (Dyn.lookup "stat_status_pairs" fields) as [pairs|]; simpl; [|done].
  by destruct pairs.
Qed.

End PagingFacts.

(** ** Presenter *)

Section PresenterFacts.

Implicit Types (term : terminal) (matches : list item) (limit : Z) (s : str).

(** X24. [render_search] shows the first [limit] matches, all of them
    when there are fewer. With a limit of zero it says that there are
    no matches even when there are some; a negative limit leaves out
    that many matches from the end, and says that there are no matches
    when none is left. *)
Theorem render_search_limits term matches limit :
  ((limit = 0 ∨ matches = [] ∨ limit <= - Z.of_nat (length matches))%Z →
   render_search term matches limit = red term "No matches.")
  ∧ ((0 < limit)%Z → matches ≠ [] →
     render_search term matches limit
     = Py.join [LF] (map (search_line term) (take (Z.to_nat limit) matches)))
  ∧ ((- Z.of_nat (length matches) < limit < 0)%Z →
     render_search term matches limit
     = Py.join [LF]
         (map (search_line term)
            (take (length matches - Z.to_nat (- limit)) matches))).
Proof.
  unfold render_search, slice_to. split; [|split].
  - intros [-> | [-> | Hneg]]; [done| |].
    + by destruct (limit <? 0)%Z; rewrite take_nil.
    + destruct (Z.ltb_spec limit 0).
      * by replace (Z.to_nat (Z.of_nat (length matches) + limit)) with 0%nat
          by lia.
      * assert (matches = []) as -> by (destruct matches; [done | simpl in *; lia]).
        by rewrite take_nil.
  - intros Hpos Hne. destruct (Z.ltb_spec limit 0); [lia|].
    destruct matches as [|it matches]; [done|].
    destruct (Z.to_nat limit) as [|n] eqn:E; [lia|]. done.
  - intros [Hlow Hneg]. destruct (Z.ltb_spec limit 0); [|lia].
    replace (Z.to_nat (Z.of_nat (length matches) + limit))
      with (length matches - Z.to_nat (- limit))%nat by lia.
    destruct matches as [|it matches]; [simpl in *; lia|].
    destruct (length (it :: matches) - Z.to_nat (- limit))%nat eqn:E;
      [simpl in *; lia|]. done.
Qed.

Lemma color_off term text code :
  supports_color term = false → color term text code = text.
Proof. intros Hoff. unfold color. by rewrite Hoff. Qed.

Lemma difficulty_color_off term difficulty :
  supports_color term = false → difficulty_color term difficulty = difficulty.
Proof.
  intros Hoff. unfold difficulty_color, green, yellow, red.
  rewrite !color_off by done. by repeat case_match.
Qed.

Lemma join_free (c : ascii) sep (lines : list str) :
  c ∉ sep → Forall (λ line, c ∉ line) lines → c ∉ Py.join sep lines.
Proof.
  intros Hsep. induction 1 as [|x lines Hx Hlines IH]; [by intros ?%elem_of_nil|].
  destruct lines as [|y lines]; [done|]. rewrite join_cons_cons.
  rewrite !elem_of_app. tauto.
Qed.

Lemma esc_not_in_literal s : bool_decide (ESC ∈ s) = false → ESC ∉ s.
Proof. by intros H%bool_decide_eq_false. Qed.

(** X25. When colours are off, because [NO_COLOR] is set to something
    or the output is no terminal, [render_search] writes no escape
    character of its own: its text holds one only if an entry shown
    does. *)
Theorem render_search_without_colour term matches limit :
  supports_color term = false →
  Forall (λ it, (ESC ∉ questionFrontendId it) ∧ (ESC ∉ title it)
                ∧ (ESC ∉ difficulty it)) matches →
  ESC ∉ render_search term matches limit.
Proof.
  intros Hoff Hitems. unfold render_search.
  assert (Forall (λ line, ESC ∉ line)
            (map (search_line term) (slice_to matches limit))) as Hlines.
  { apply Forall_map. 
    assert (Forall (λ it, (ESC ∉ questionFrontendId it) ∧ (ESC ∉ title it)
                          ∧ (ESC ∉ difficulty it)) (slice_to matches limit))
      as Hshown by (unfold slice_to; destruct (limit <? 0)%Z; by apply Forall_take).
    eapply Forall_impl; [exact Hshown|]. intros it (Hid & Htitle & Hdiff).
    unfold search_line, bold, dim.
    rewrite !color_off, difficulty_color_off by done.
    rewrite !not_elem_of_app. repeat split; try done;
      try by apply esc_not_in_literal.
    destruct (paidOnly it); by apply esc_not_in_literal. }
  destruct (map _ _) eqn:E.
  - unfold red. rewrite color_off by done. by apply esc_not_in_literal.
  - apply join_free; [by apply esc_not_in_literal | done].
Qed.

End PresenterFacts.

(** ** The operation name *)

Section OperationNameFacts.

Implicit Types (c : ascii) (s name ws : str) (f : ascii → bool).

Lemma take_drop_while f s : take_while f s ++ drop_while f s = s.
Proof.
  induction s as [|c s IH]; [done|]. simpl.
  destruct (f c); simpl; by rewrite ?IH.
Qed.

Lemma take_while_all f s : forallb f (take_while f s) = true.
Proof.
  induction s as [|c s IH]; [done|]. simpl.
  destruct (f c) eqn:E; [|done]. simpl. by rewrite E.
Qed.

Lemma drop_while_head f s c : head (drop_while f s) = Some c → f c = false.
Proof.
  induction s as [|a s IH]; [done|]. simpl.
  destruct (f a) eqn:E; [done|]. by intros [= <-].
Qed.

Lemma take_while_stop f ws c s :
  forallb f ws = true → f c = false → take_while f (ws ++ c :: s) = ws.
Proof.
  intros Hws Hc. induction ws as [|a ws IH]; simpl; [by rewrite Hc|].
  simpl in Hws. apply andb_true_iff in Hws as [-> Hws]. by rewrite IH.
Qed.

Lemma drop_while_stop f ws c s :
  forallb f ws = true → f c = false → drop_while f (ws ++ c :: s) = c :: s.
Proof.
  intros Hws Hc. induction ws as [|a ws IH]; simpl; [by rewrite Hc|].
  simpl in Hws. apply andb_true_iff in Hws as [-> Hws]. by rewrite IH.
Qed.

Lemma isword_not_space c : isword c = true → Py.isspace c = false.
Proof. by destruct c as [[] [] [] [] [] [] [] []]. Qed.

Lemma match_operation_sound s name :
  match_operation s = Some name →
  ∃ ws rest,
    s = "query" ++ ws ++ name ++ rest
    ∧ ws ≠ [] ∧ blank ws = true
    ∧ name ≠ [] ∧ forallb isword name = true
    ∧ ∀ c, head rest = Some c → isword c = false.
Proof.
  unfold match_operation.
  destruct (Py.startswith "query" s) eqn:Hstart; [|done].
  apply startswith_spec in Hstart as [after ->].
  change (drop 5 ("query" ++ after)) with after.
  destruct (take_while Py.isspace after) as [|a ws'] eqn:Hws; [done|].
  destruct (take_while isword (drop_while Py.isspace after)) as [|b name']
    eqn:Hname; [done|].
  intros [= <-]. exists (a :: ws'), (drop_while isword (drop_while Py.isspace after)).
  split; [|split; [done|split; [|split; [done|split]]]].
  - rewrite <- Hws, <- Hname. by rewrite take_drop_while, take_drop_while.
  - rewrite <- Hws. apply take_while_all.
  - rewrite <- Hname. apply take_while_all.
  - apply drop_while_head.
Qed.

Lemma match_operation_complete ws c rest :
  ws ≠ [] → blank ws = true → isword c = true →
  match_operation ("query" ++ ws ++ c :: rest) ≠ None.
Proof.
  intros Hne Hws Hc. unfold match_operation.
  change (Py.startswith "query" ("query" ++ ws ++ c :: rest))
    with (Py.startswith [] (ws ++ c :: rest)).
  change (drop 5 ("query" ++ ws ++ c :: rest)) with (ws ++ c :: rest).
  simpl Py.startswith. cbv iota.
  rewrite take_while_stop, drop_while_stop
    by (done || by apply isword_not_space).
  destruct ws; [done|]. simpl. by rewrite Hc.
Qed.

Lemma search_operation_here s :
  match_operation s ≠ None → search_operation s ≠ None.
Proof.
  intros Hhere. destruct s; cbn [search_operation];
    by destruct (match_operation _).
Qed.

Lemma search_operation_suffix pre s :
  search_operation s ≠ None → search_operation (pre ++ s) ≠ None.
Proof.
  intros Hs. induction pre as [|a pre IH]; [done|].
  change ((a :: pre) ++ s) with (a :: (pre ++ s)). cbn [search_operation].
  by destruct (match_operation (a :: pre ++ s)).
Qed.

(** X26. The operation name [_operation_name] finds is a run of word
    characters, not empty and not followed by another, that comes in
    the query after the word [query] and at least one whitespace
    character; it finds none only when the query holds no [query]
    followed by whitespace and a word character. *)
Theorem operation_name_spec query :
  (∀ name,
     _operation_name query = Some name →
     ∃ before ws rest,
       query = before ++ "query" ++ ws ++ name ++ rest
       ∧ ws ≠ [] ∧ blank ws = true
       ∧ name ≠ [] ∧ forallb isword name = true
       ∧ ∀ c, head rest = Some c → isword c = false)
  ∧ (_operation_name query = None →
     ∀ before ws c rest,
       query = before ++ "query" ++ ws ++ c :: rest →
       ws ≠ [] → blank ws = true → isword c = false).
Proof.
  unfold _operation_name. split.
  - intros name. induction query as [|a query IH]; [done|].
    cbn [search_operation].
    destruct (match_operation (a :: query)) as [name'|] eqn:Hhere.
    + intros [= ->]. apply match_operation_sound in Hhere
        as (ws & rest & Heq & H). by exists [], ws, rest.
    + intros (before & ws & rest & -> & H)%IH.
      by exists (a :: before), ws, rest.
  - intros Hnone before ws c rest -> Hne Hws.
    destruct (isword c) eqn:Hc; [|done]. exfalso.
    apply (search_operation_suffix before ("query" ++ ws ++ c :: rest));
      [|done].
    by apply search_operation_here, match_operation_complete.
Qed.

End OperationNameFacts.

(** ** Tags without a meaning for the converter *)

Section UnhandledTagFacts.

Implicit Types (tag : str) (self : HtmlToText).







End UnhandledTagFacts.

(** ** The further properties at sample inputs *)

Example payload_names_operation :
  graphql_payload DETAIL_QUERY (JObject [("titleSlug", JStr "two-sum")])
  = JObject [("query", JStr DETAIL_QUERY);
             ("variables", JObject [("titleSlug", JStr "two-sum")]);
             ("operationName", JStr "question")].
Proof. reflexivity. Qed.

Lemma blank_query_matches_all_witness :
  find_matches catalog "  " = catalog
  ∧ resolve_slug "  " catalog = (None, Some catalog).
Proof. exact (blank_query_matches_all catalog "  " eq_refl). Defined.

Lemma find_matches_finds_own_name_witness :
  two_sum ∈ find_matches catalog ("  two " ++ [TAB] ++ " SUM ").
Proof.
  apply (find_matches_finds_own_name catalog two_sum).
  - repeat constructor.
  - left. reflexivity.
Defined.

Lemma find_matches_narrows_witness : two_sum ∈ find_matches catalog "sum".
Proof.
  apply (find_matches_narrows catalog "sum" "two sum" two_sum).
  - exists "two ", []. reflexivity.
  - change (two_sum ∈ [two_sum; two_sum_ii]). repeat constructor.
Defined.

Lemma resolve_slug_answers_witness :
  resolve_slug "two sum" catalog = (None, Some [two_sum; two_sum_ii])
  ∧ (two_sum ∈ catalog ∧ fuzzy_match "two sum" two_sum)
  ∧ (two_sum_ii ∈ catalog ∧ fuzzy_match "two sum" two_sum_ii).
Proof.
  destruct (proj1 (resolve_slug_answers catalog "two sum" None
                     (Some [two_sum; two_sum_ii]) eq_refl)
              [two_sum; two_sum_ii] eq_refl) as (_ & _ & Hall).
  split; [reflexivity|].
  split; apply Hall; [apply list_elem_of_here|].
  apply list_elem_of_further, list_elem_of_here.
Defined.

Lemma html_to_text_is_trimmed_witness : starts_clean "a b" ∧ ends_clean "a b".
Proof. exact (html_to_text_is_trimmed "<p> a  b </p>" "a b" eq_refl). Defined.

Lemma html_to_text_pre_witness :
  html_to_text ("<pre>" ++ padded_block ++ "</pre>")
  = Some ("x" ++ [LF] ++ " y").
Proof.
  apply (html_to_text_pre padded_block). repeat constructor; discriminate.
Defined.

Lemma html_to_text_paragraphs_witness :
  html_to_text ("<p>" ++ " a   b" ++ "</p><p>" ++ "c " ++ "</p>")
  = Some ("a b" ++ [LF] ++ "c").
Proof.
  apply (html_to_text_paragraphs " a   b" "c ");
    try (repeat constructor; discriminate); discriminate.
Defined.

Lemma html_to_text_no_empty_line_witness :
  ¬ substring [LF; LF] ("a" ++ [LF] ++ "- b").
Proof.
  apply (html_to_text_no_empty_line list_and_paragraph
           [StartTag "p" []; Data "a"; EndTag "p"; StartTag "ul" [];
            StartTag "li" []; Data "b"; EndTag "li"; EndTag "ul"]);
    [reflexivity | | reflexivity].
  repeat constructor; discriminate.
Defined.

Lemma html_to_text_blank_witness :
  html_to_text (" " ++ [LF; TAB] ++ " ") = Some [].
Proof. exact (html_to_text_blank (" " ++ [LF; TAB] ++ " ") eq_refl). Defined.



Lemma fetch_problem_list_after_miss_witness :
  fetch_problem_list str_of_scalar 5 (start ∅ total_three 0)
  = Ret (JList (repeat (JObject []) 4))
      (put_file "problem_list.json"
         (cache_record 0 (JList (repeat (JObject []) 4)))
         (make_dir
            (log_request (POST GRAPHQL_URL LIST_QUERY (list_variables 100 100))
               (log_request first_page (make_dir (start ∅ total_three 0)))))).
Proof.
  destruct (fetch_problem_list_after_miss str_of_scalar 5
              (start ∅ total_three 0) JNull
              (make_dir (start ∅ total_three 0))) as (Hprimary & _);
    [reflexivity..|].
  apply Hprimary. reflexivity.
Defined.

Lemma fetch_problem_list_again_witness :
  fetch_problem_list str_of_scalar 1
    (at_time 3600
       (put_file "problem_list.json"
          (cache_record 0 (JList (repeat (JObject []) 4)))
          (make_dir
             (log_request (POST GRAPHQL_URL LIST_QUERY (list_variables 100 100))
                (log_request first_page (make_dir (start ∅ total_three 0)))))))
  = Ret (JList (repeat (JObject []) 4))
      (make_dir
         (at_time 3600
            (put_file "problem_list.json"
               (cache_record 0 (JList (repeat (JObject []) 4)))
               (make_dir
                  (log_request
                     (POST GRAPHQL_URL LIST_QUERY (list_variables 100 100))
                     (log_request first_page
                        (make_dir (start ∅ total_three 0)))))))).
Proof.
  apply (fetch_problem_list_again str_of_scalar 5 1 (start ∅ total_three 0)
           JNull (make_dir (start ∅ total_three 0))
           (JList (repeat (JObject []) 4)) _ 3600);
    try reflexivity.
  by vm_compute.
Defined.

Lemma fetch_question_again_witness :
  fetch_question "two-sum"
    (at_time 86400
       (put_file "question_two-sum.json"
          (cache_record 0 (JObject [("title", JStr "Two Sum")]))
          (make_dir
             (log_request (detail_request "two-sum")
                (make_dir (start ∅ (λ _, detail_reply) 0))))))
  = Ret (JObject [("title", JStr "Two Sum")])
      (make_dir
         (at_time 86400
            (put_file "question_two-sum.json"
               (cache_record 0 (JObject [("title", JStr "Two Sum")]))
               (make_dir
                  (log_request (detail_request "two-sum")
                     (make_dir (start ∅ (λ _, detail_reply) 0))))))).
Proof.
  apply (fetch_question_again "two-sum" (start ∅ (λ _, detail_reply) 0)
           JNull (make_dir (start ∅ (λ _, detail_reply) 0))
           (JObject [("title", JStr "Two Sum")]) _ 86400);
    try reflexivity.
  by vm_compute.
Defined.


Lemma rest_item_shape_witness :
  keys_of (JObject [("questionId", JStr "1");
                    ("questionFrontendId", JStr "1");
                    ("title", JStr "Two Sum");
                    ("titleSlug", JStr "two-sum");
                    ("difficulty", JStr "Easy");
                    ("paidOnly", JBool false)])
  = catalog_keys.
Proof.
  apply (rest_item_shape str_of_scalar snapshot_entry (start ∅ offline 0)
           _ (start ∅ offline 0)).
  reflexivity.
Defined.

Lemma render_search_limits_witness :
  render_search plain_terminal catalog 2
  = Py.join [LF] (map (search_line plain_terminal) [two_sum; three_sum]).
Proof.
  apply (proj1 (proj2 (render_search_limits plain_terminal catalog 2)));
    [lia | discriminate].
Defined.

Lemma render_search_without_colour_witness :
  ESC ∉ render_search plain_terminal catalog 10.
Proof.
  apply (render_search_without_colour plain_terminal catalog 10 eq_refl).
  repeat constructor; by apply esc_not_in_literal.
Defined.

Lemma operation_name_spec_witness :
  ∃ before ws rest,
    LIST_QUERY = before ++ "query" ++ ws ++ "problemsetQuestionList" ++ rest
    ∧ ws ≠ [] ∧ blank ws = true
    ∧ "problemsetQuestionList" ≠ []
    ∧ forallb isword "problemsetQuestionList" = true
    ∧ ∀ c, head rest = Some c → isword c = false.
Proof.
  exact (proj1 (operation_name_spec LIST_QUERY) "problemsetQuestionList"
           eq_refl).
Defined.

